(** * mailgun: mailing lists and their paginated iterator

    A shallow embedding of [mailing_lists.go]: the [List] record, the
    [ListsIterator] with its six navigation methods, the constructor
    [ListMailingLists], and the two payload-building operations
    [CreateMailingList] and [UpdateMailingList].

    Go pointers become explicit state: a [Store] holds the iterator object
    [*ListsIterator], the caller's out slot [*[]List], and the network.  The
    network carries a log of every request handed to the HTTP helpers, so that
    "performs no fetch" is a statement about that log. *)

From Stdlib Require Import String Ascii List ZArith Bool DecimalString.
From Stdlib Require Import Lia.
Import ListNotations.
Open Scope string_scope.

(** ** Values *)

(** Go's [error] interface: [nil] is [None].  The kinds are the ones the
    HTTP helpers can produce, plus the URL builder's parse failure. *)
Inductive error : Type :=
| TransportError (msg : string)
| StatusError (code : Z) (msg : string)
| DecodeError (msg : string)
| UrlError (msg : string).

(** [const ( ReadOnly = ...; Members = ...; Everyone = ... )] *)
Definition ReadOnly : string := "readonly".
Definition Members : string := "members".
Definition Everyone : string := "everyone".

(** The package's record [List] sits in a module of the package's name, so
    that the name does not hide the list library. *)
Module mailgun.

(** [type List struct] *)
Record List : Type := mkList {
  Address : string;
  Name : string;
  Description : string;
  AccessLevel : string;
  CreatedAt : string;
  MembersCount : Z
}.

(** [List{}] and [var l List]: the zero value. *)
Definition zeroList : List := mkList "" "" "" "" "" 0.

(** [type ListsOptions struct { Limit int }] *)
Record ListsOptions : Type := mkListsOptions { Limit : Z }.

(** Modelled from the spec: the [Mailgun] interface is declared in another
    file of the package.  The account handle is a reference to the shared
    transport and credentials: what [mg.Client()] and [mg.APIKey()] return,
    and the base the public API URL is generated from. *)
Record Mailgun : Type := mkMailgun {
  ApiBase : string;
  APIKey : string;
  Client : nat
}.

End mailgun.
Export mailgun.

(** Modelled from the spec: [type Paging struct] is declared in another file
    of the package.  A cursor has four fields, first, next, previous and
    last, each a fetch URL or empty; the iterator reads them as
    [Paging.First], [Paging.Next], [Paging.Previous], [Paging.Last]. *)
Module Paging.
Record t : Type := mk {
  First : string;
  Next : string;
  Previous : string;
  Last : string
}.
(** The zero value [Paging{}]. *)
Definition zero : t := mk "" "" "" "".
End Paging.

(** [type listsResponse struct { Lists []List; Paging Paging }].  A nil
    slice and an empty slice are both the empty list. *)
Record listsResponse : Type := mkListsResponse {
  Lists : list List;
  Paging : Paging.t
}.

(** [type ListsIterator struct { listsResponse; mg Mailgun; err error }].
    The embedded struct is the field [resp]. *)
Record ListsIterator : Type := mkListsIterator {
  resp : listsResponse;
  mg : Mailgun;
  err : option error
}.

(** ** Requests and payloads *)

(** Modelled from the spec: [httpRequest] and its setters are declared in
    another file of the package.  A request is a URL, the query parameters
    added to it, the client that will send it and basic-auth credentials. *)
Record httpRequest : Type := mkRequest {
  URL : string;
  Parameters : list (string * string);
  RequestClient : option nat;
  BasicAuthUser : string;
  BasicAuthPassword : string
}.

Definition newHTTPRequest (url : string) : httpRequest :=
  mkRequest url [] None "" "".

Definition setClient (r : httpRequest) (c : nat) : httpRequest :=
  mkRequest (URL r) (Parameters r) (Some c) (BasicAuthUser r) (BasicAuthPassword r).

Definition setBasicAuth (r : httpRequest) (user password : string) : httpRequest :=
  mkRequest (URL r) (Parameters r) (RequestClient r) user password.

Definition addParameter (r : httpRequest) (name value : string) : httpRequest :=
  mkRequest (URL r) (Parameters r ++ [(name, value)])%list (RequestClient r)
            (BasicAuthUser r) (BasicAuthPassword r).

(** Modelled from the spec: [urlEncodedPayload] and [addValue] are declared
    in another file of the package.  A payload is the sequence of fields
    transmitted, each a key and a value, in the order they were added. *)
Definition urlEncodedPayload : Type := list (string * string).

Definition newUrlEncodedPayload : urlEncodedPayload := [].

Definition addValue (p : urlEncodedPayload) (key value : string) : urlEncodedPayload :=
  (p ++ [(key, value)])%list.

(** [strconv.Itoa] *)
Definition Itoa (n : Z) : string := NilZero.string_of_int (Z.to_int n).

(** ** The network *)

Inductive method : Type := GET | POST | PUT | DELETE.

(** One entry of the request log. *)
Record call : Type := mkCall {
  callMethod : method;
  callRequest : httpRequest;
  callPayload : option urlEncodedPayload
}.

(** The outside world and the log of requests issued so far. *)
Record Net (World : Type) : Type := mkNet {
  world : World;
  calls : list call
}.
Arguments mkNet {World} _ _.
Arguments world {World} _.
Arguments calls {World} _.

(** The helpers of the package that [mailing_lists.go] calls and that live in
    other files.  Each is a parameter of the model: the theorems about the
    iterator hold for every implementation of them.  A helper that receives
    a pointer ([&li.listsResponse], [&l]) takes the pointee's current value
    and returns its new value. *)
Record Collaborators (World Response : Type) : Type := mkCollaborators {
  generatePublicApiUrl : Mailgun -> string -> string;
  listsEndpoint : string;
  basicAuthUser : string;
  generateUrlWithParameters : httpRequest -> string * option error;
  getResponseFromJSON :
    httpRequest -> listsResponse -> World -> (listsResponse * option error) * World;
  makePostRequest :
    httpRequest -> urlEncodedPayload -> World -> (Response * option error) * World;
  makePutRequest :
    httpRequest -> urlEncodedPayload -> World -> (Response * option error) * World;
  parseFromJSON : Response -> List -> List * option error
}.
Arguments generatePublicApiUrl {World Response} _ _ _.
Arguments listsEndpoint {World Response} _.
Arguments basicAuthUser {World Response} _.
Arguments generateUrlWithParameters {World Response} _ _.
Arguments getResponseFromJSON {World Response} _ _ _ _.
Arguments makePostRequest {World Response} _ _ _ _.
Arguments makePutRequest {World Response} _ _ _ _.
Arguments parseFromJSON {World Response} _ _ _.

(** What a method call can see and change: the iterator object, the
    caller's slot behind [items *[]List], and the network. *)
Record Store (World : Type) : Type := mkStore {
  li : ListsIterator;
  items : list List;
  net : Net World
}.
Arguments mkStore {World} _ _ _.
Arguments li {World} _.
Arguments items {World} _.
Arguments net {World} _.

Section Model.

Context {World Response : Type}.
Variable env : Collaborators World Response.

(** Calling a helper that talks to the server appends to the log. *)
Definition invokeGet (r : httpRequest) (v : listsResponse) (n : Net World)
  : (listsResponse * option error) * Net World :=
  let '(res, w) := getResponseFromJSON env r v (world n) in
  (res, mkNet w (calls n ++ [mkCall GET r None])%list).

Definition invokePost (r : httpRequest) (p : urlEncodedPayload) (n : Net World)
  : (Response * option error) * Net World :=
  let '(res, w) := makePostRequest env r p (world n) in
  (res, mkNet w (calls n ++ [mkCall POST r (Some p)])%list).

Definition invokePut (r : httpRequest) (p : urlEncodedPayload) (n : Net World)
  : (Response * option error) * Net World :=
  let '(res, w) := makePutRequest env r p (world n) in
  (res, mkNet w (calls n ++ [mkCall PUT r (Some p)])%list).

(** *** ListMailingLists *)

(** The request [r] as it stands when [generateUrlWithParameters] is
    called. *)
Definition listRequest (m : Mailgun) (opts : option ListsOptions) : httpRequest :=
  let r := newHTTPRequest (generatePublicApiUrl env m (listsEndpoint env) ++ "/pages") in
  let r := setClient r (Client m) in
  let r := setBasicAuth r (basicAuthUser env) (APIKey m) in
  match opts with
  | Some o => if negb (Limit o =? 0)%Z
              then addParameter r "limit" (Itoa (Limit o))
              else r
  | None => r
  end.

Definition ListMailingLists (m : Mailgun) (opts : option ListsOptions)
           (n : Net World) : ListsIterator * Net World :=
  let r := listRequest m opts in
  let '(url, e) := generateUrlWithParameters env r in
  (mkListsIterator
     (mkListsResponse [] (Paging.mk url url "" ""))
     m
     e,
   n).

(** *** Iterator methods *)

Definition Err (it : ListsIterator) : option error := err it.

Definition setResp (v : listsResponse) (it : ListsIterator) : ListsIterator :=
  mkListsIterator v (mg it) (err it).

Definition setErr (e : option error) (s : Store World) : Store World :=
  mkStore (mkListsIterator (resp (li s)) (mg (li s)) e) (items s) (net s).

Definition setItems (l : list List) (s : Store World) : Store World :=
  mkStore (li s) l (net s).

(** The request [fetch] builds for a URL. *)
Definition fetchRequest (url : string) (it : ListsIterator) : httpRequest :=
  let r := newHTTPRequest url in
  let r := setClient r (Client (mg it)) in
  setBasicAuth r (basicAuthUser env) (APIKey (mg it)).

Definition fetch (url : string) (s : Store World) : option error * Store World :=
  let r := fetchRequest url (li s) in
  let '((v, e), n) := invokeGet r (resp (li s)) (net s) in
  (e, mkStore (setResp v (li s)) (items s) n).

Definition GetPrevious (s : Store World) : option error * Store World :=
  fetch (Paging.Previous (Paging (resp (li s)))) s.

Definition GetNext (s : Store World) : option error * Store World :=
  fetch (Paging.Next (Paging (resp (li s)))) s.

Definition Next (s : Store World) : bool * Store World :=
  match err (li s) with
  | Some _ => (false, s)
  | None =>
    let '(e, s) := fetch (Paging.Next (Paging (resp (li s)))) s in
    let s := setErr e s in
    match err (li s) with
    | Some _ => (false, s)
    | None =>
      let s := setItems (Lists (resp (li s))) s in
      if (length (Lists (resp (li s))) =? 0)%nat then (false, s) else (true, s)
    end
  end.

Definition First (s : Store World) : bool * Store World :=
  match err (li s) with
  | Some _ => (false, s)
  | None =>
    let '(e, s) := fetch (Paging.First (Paging (resp (li s)))) s in
    let s := setErr e s in
    match err (li s) with
    | Some _ => (false, s)
    | None => (true, setItems (Lists (resp (li s))) s)
    end
  end.

Definition Last (s : Store World) : bool * Store World :=
  match err (li s) with
  | Some _ => (false, s)
  | None =>
    let '(e, s) := fetch (Paging.Last (Paging (resp (li s)))) s in
    let s := setErr e s in
    match err (li s) with
    | Some _ => (false, s)
    | None => (true, setItems (Lists (resp (li s))) s)
    end
  end.

Definition Previous (s : Store World) : bool * Store World :=
  match err (li s) with
  | Some _ => (false, s)
  | None =>
    if (Paging.Previous (Paging (resp (li s))) =? "")%string then (false, s)
    else
      let '(e, s) := fetch (Paging.Previous (Paging (resp (li s)))) s in
      let s := setErr e s in
      match err (li s) with
      | Some _ => (false, s)
      | None =>
        let s := setItems (Lists (resp (li s))) s in
        if (length (Lists (resp (li s))) =? 0)%nat then (false, s) else (true, s)
      end
  end.

(** *** CreateMailingList, UpdateMailingList *)

Definition CreateMailingList (m : Mailgun) (prototype : List) (n : Net World)
  : (List * option error) * Net World :=
  let r := newHTTPRequest (generatePublicApiUrl env m (listsEndpoint env)) in
  let r := setClient r (Client m) in
  let r := setBasicAuth r (basicAuthUser env) (APIKey m) in
  let p := newUrlEncodedPayload in
  let p := if negb (Address prototype =? "")
           then addValue p "address" (Address prototype) else p in
  let p := if negb (Name prototype =? "")
           then addValue p "name" (Name prototype) else p in
  let p := if negb (Description prototype =? "")
           then addValue p "description" (Description prototype) else p in
  let p := if negb (AccessLevel prototype =? "")
           then addValue p "access_level" (AccessLevel prototype) else p in
  let '((response, e), n) := invokePost r p n in
  match e with
  | Some _ => ((zeroList, e), n)
  | None => (parseFromJSON env response zeroList, n)
  end.

Definition UpdateMailingList (m : Mailgun) (addr : string) (prototype : List)
           (n : Net World) : (List * option error) * Net World :=
  let r := newHTTPRequest
             (generatePublicApiUrl env m (listsEndpoint env) ++ "/" ++ addr) in
  let r := setClient r (Client m) in
  let r := setBasicAuth r (basicAuthUser env) (APIKey m) in
  let p := newUrlEncodedPayload in
  let p := if negb (Address prototype =? "")
           then addValue p "address" (Address prototype) else p in
  let p := if negb (Name prototype =? "")
           then addValue p "name" (Name prototype) else p in
  let p := if negb (Description prototype =? "")
           then addValue p "description" (Description prototype) else p in
  let p := if negb (AccessLevel prototype =? "")
           then addValue p "access_level" (AccessLevel prototype) else p in
  let l := zeroList in
  let '((response, e), n) := invokePut r p n in
  match e with
  | Some _ => ((l, e), n)
  | None => (parseFromJSON env response l, n)
  end.

End Model.

(** ** Naming the navigation methods

    The four boolean methods share their shape; the statements below range
    over them through [navigate].  The definitions above are the model, this
    is only a way to speak of "every navigation operation" at once. *)

Inductive nav : Type := NavFirst | NavNext | NavPrevious | NavLast.

(** The cursor field a method hands to [fetch]. *)
Definition navTarget (op : nav) (p : Paging.t) : string :=
  match op with
  | NavFirst => Paging.First p
  | NavNext => Paging.Next p
  | NavPrevious => Paging.Previous p
  | NavLast => Paging.Last p
  end.

Definition navigate {World Response : Type} (env : Collaborators World Response)
           (op : nav) (s : Store World) : bool * Store World :=
  match op with
  | NavFirst => First env s
  | NavNext => Next env s
  | NavPrevious => Previous env s
  | NavLast => Last env s
  end.

(** A caller's loop: run the methods in order, collecting what they return. *)
Fixpoint navigateAll {World Response : Type} (env : Collaborators World Response)
         (ops : list nav) (s : Store World) : list bool * Store World :=
  match ops with
  | [] => ([], s)
  | op :: rest =>
    let '(b, s1) := navigate env op s in
    let '(bs, s2) := navigateAll env rest s1 in
    (b :: bs, s2)
  end.

(** What [getResponseFromJSON] answers when [fetch] is called on [url] in
    store [s]: the decoded value it leaves behind the pointer, and its error. *)
Definition fetchAnswer {World Response : Type} (env : Collaborators World Response)
           (url : string) (s : Store World) : listsResponse * option error :=
  fst (getResponseFromJSON env (fetchRequest env url (li s)) (resp (li s))
                           (world (net s))).

(** The log entry a fetch of [url] leaves. *)
Definition fetchCall {World Response : Type} (env : Collaborators World Response)
           (url : string) (s : Store World) : call :=
  mkCall GET (fetchRequest env url (li s)) None.

(** The world [getResponseFromJSON] leaves after that call. *)
Definition fetchWorld {World Response : Type} (env : Collaborators World Response)
           (url : string) (s : Store World) : World :=
  snd (getResponseFromJSON env (fetchRequest env url (li s)) (resp (li s))
                           (world (net s))).

(** The store right after the fetch of a boolean method, with the error
    assigned to [li.err]. *)
Definition afterFetch {World Response : Type} (env : Collaborators World Response)
           (url : string) (s : Store World) : Store World :=
  mkStore (mkListsIterator (fst (fetchAnswer env url s)) (mg (li s))
                           (snd (fetchAnswer env url s)))
          (items s)
          (mkNet (fetchWorld env url s)
                 (calls (net s) ++ [fetchCall env url s])%list).

(** All six navigation methods.  The boolean ones report a flag, [GetNext]
    and [GetPrevious] report an error value. *)
Inductive operation : Type :=
| Nav (op : nav)
| GetNextOp
| GetPreviousOp.

Inductive outcome : Type :=
| Flag (b : bool)
| Status (e : option error).

Definition opTarget (op : operation) (p : Paging.t) : string :=
  match op with
  | Nav n => navTarget n p
  | GetNextOp => Paging.Next p
  | GetPreviousOp => Paging.Previous p
  end.

Definition perform {World Response : Type} (env : Collaborators World Response)
           (op : operation) (s : Store World) : outcome * Store World :=
  match op with
  | Nav n => let '(b, s') := navigate env n s in (Flag b, s')
  | GetNextOp => let '(e, s') := GetNext env s in (Status e, s')
  | GetPreviousOp => let '(e, s') := GetPrevious env s in (Status e, s')
  end.

Fixpoint performAll {World Response : Type} (env : Collaborators World Response)
         (ops : list operation) (s : Store World) : list outcome * Store World :=
  match ops with
  | [] => ([], s)
  | op :: rest =>
    let '(o, s1) := perform env op s in
    let '(os, s2) := performAll env rest s1 in
    (o :: os, s2)
  end.

(** The cursor's [first] link of the iterator in a store. *)
Definition firstOf {World : Type} (s : Store World) : string :=
  Paging.First (Paging (resp (li s))).

(** The payload both [CreateMailingList] and [UpdateMailingList] are claimed
    to send: the four named fields, in order, without the empty ones. *)
Definition nonEmptyFields (prototype : List) : urlEncodedPayload :=
  filter (fun kv => negb (snd kv =? ""))
         [("address", Address prototype);
          ("name", Name prototype);
          ("description", Description prototype);
          ("access_level", AccessLevel prototype)].

(** The requests the two operations address. *)
Definition createRequest {World Response : Type} (env : Collaborators World Response)
           (m : Mailgun) : httpRequest :=
  setBasicAuth
    (setClient (newHTTPRequest (generatePublicApiUrl env m (listsEndpoint env)))
               (Client m))
    (basicAuthUser env) (APIKey m).

Definition updateRequest {World Response : Type} (env : Collaborators World Response)
           (m : Mailgun) (addr : string) : httpRequest :=
  setBasicAuth
    (setClient (newHTTPRequest
                  (generatePublicApiUrl env m (listsEndpoint env) ++ "/" ++ addr))
               (Client m))
    (basicAuthUser env) (APIKey m).

(** ** The HTTP helpers, from their contract *)

(** One round trip of the authenticated transport:
    [do(method, url, body?) -> (status, bodyBytes) | TransportError]. *)
Inductive httpResult (Body : Type) : Type :=
| TransportFailed (msg : string)
| Responded (status : Z) (body : Body).
Arguments TransportFailed {Body} _.
Arguments Responded {Body} _ _.

Record Transport (World Body : Type) : Type := mkTransport {
  roundTrip :
    method -> httpRequest -> option urlEncodedPayload -> World -> httpResult Body * World;
  (* JSON decoding into an existing value; [None] when the body is malformed *)
  decodeLists : Body -> listsResponse -> option listsResponse;
  decodeList : Body -> List -> option List;
  serverMessage : Body -> string;
  (* URL building *)
  apiUrl : Mailgun -> string -> string;
  buildUrl : httpRequest -> string * option error
}.
Arguments roundTrip {World Body} _ _ _ _ _.
Arguments decodeLists {World Body} _ _ _.
Arguments decodeList {World Body} _ _ _.
Arguments serverMessage {World Body} _ _.
Arguments apiUrl {World Body} _ _ _.
Arguments buildUrl {World Body} _ _.

Definition is2xx (status : Z) : bool := ((200 <=? status) && (status <? 300))%Z.

(** Modelled from the spec: [getResponseFromJSON] is defined in another file
    of the package, not in [mailing_lists.go].  Per the page fetcher's
    contract: one authenticated GET; a JSON body decoded into the target; on
    transport failure, non-2xx status or malformed body an error of that kind
    and the target left as it was. *)
Definition specGetResponseFromJSON {World Body : Type} (T : Transport World Body)
           (r : httpRequest) (v : listsResponse) (w : World)
  : (listsResponse * option error) * World :=
  match roundTrip T GET r None w with
  | (TransportFailed msg, w') => ((v, Some (TransportError msg)), w')
  | (Responded status body, w') =>
    if is2xx status then
      match decodeLists T body v with
      | Some v' => ((v', None), w')
      | None => ((v, Some (DecodeError "malformed page")), w')
      end
    else ((v, Some (StatusError status (serverMessage T body))), w')
  end.

(** Modelled from the spec: [makePostRequest] and [makePutRequest] are
    defined in another file of the package.  One authenticated request with
    the payload as body; the response, or an error on transport failure or
    non-2xx status. *)
Definition specSend {World Body : Type} (T : Transport World Body) (m : method)
           (r : httpRequest) (p : urlEncodedPayload) (w : World)
  : (option Body * option error) * World :=
  match roundTrip T m r (Some p) w with
  | (TransportFailed msg, w') => ((None, Some (TransportError msg)), w')
  | (Responded status body, w') =>
    if is2xx status then ((Some body, None), w')
    else ((None, Some (StatusError status (serverMessage T body))), w')
  end.

(** Modelled from the spec: [parseFromJSON] is a method of the response type,
    defined in another file of the package.  It decodes the body into the
    target, or reports a decode error. *)
Definition specParseFromJSON {World Body : Type} (T : Transport World Body)
           (response : option Body) (l : List) : List * option error :=
  match response with
  | Some body =>
    match decodeList T body l with
    | Some l' => (l', None)
    | None => (l, Some (DecodeError "malformed item"))
    end
  | None => (l, Some (DecodeError "no response"))
  end.

Definition specCollaborators {World Body : Type} (T : Transport World Body)
  : Collaborators World (option Body) :=
  mkCollaborators World (option Body)
    (apiUrl T) "lists" "api" (buildUrl T)
    (specGetResponseFromJSON T)
    (specSend T POST) (specSend T PUT)
    (specParseFromJSON T).

(** ** A test double for the server

    A small in-memory server used for the concrete runs below: two lists on
    the first page, an empty page after it, a malformed body at one address,
    404 elsewhere, and a transport failure on the empty URL.  [firstLink] is
    the [first] link the server puts in its paging metadata.  The world is
    the number of requests the server has seen. *)

Module Stub.

Inductive body : Type :=
| PageBody (v : listsResponse)
| ItemBody (l : List)
| Garbage (raw : string).

Definition base : string := "https://api.mailgun.net/v3".
Definition startUrl : string := "https://api.mailgun.net/v3/lists/pages?limit=2".
Definition nextUrl : string :=
  "https://api.mailgun.net/v3/lists/pages?page=next&address=b%40example.com&limit=2".
Definition prevUrl : string :=
  "https://api.mailgun.net/v3/lists/pages?page=prev&address=a%40example.com&limit=2".
Definition lastUrl : string :=
  "https://api.mailgun.net/v3/lists/pages?page=last&limit=2".
Definition pagedFirstUrl : string :=
  "https://api.mailgun.net/v3/lists/pages?page=first&limit=2".
Definition brokenUrl : string := "https://api.mailgun.net/v3/lists/pages?page=broken".

Definition listA : List := mkList "a@example.com" "A" "" Everyone "Mon, 01 Jan 2018" 3.
Definition listB : List := mkList "b@example.com" "B" "second" ReadOnly "Tue, 02 Jan 2018" 0.

Definition page1 (firstLink : string) : listsResponse :=
  mkListsResponse [listA; listB] (Paging.mk firstLink nextUrl prevUrl lastUrl).

Definition emptyPage (firstLink : string) : listsResponse :=
  mkListsResponse [] (Paging.mk firstLink nextUrl prevUrl lastUrl).

Definition serve (firstLink : string) (m : method) (r : httpRequest)
           (p : option urlEncodedPayload) (w : nat) : httpResult body * nat :=
  (match m with
   | GET =>
     if URL r =? "" then TransportFailed "unsupported protocol scheme"
     else if (URL r =? startUrl) || (URL r =? firstLink) || (URL r =? lastUrl)
     then Responded 200 (PageBody (page1 firstLink))
     else if (URL r =? nextUrl) || (URL r =? prevUrl)
     then Responded 200 (PageBody (emptyPage firstLink))
     else if URL r =? brokenUrl then Responded 200 (Garbage "<html>")
     else Responded 404 (Garbage "not found")
   | DELETE => Responded 200 (Garbage "")
   | _ => Responded 200 (ItemBody listA)
   end, S w).

Definition decodePage (b : body) (v : listsResponse) : option listsResponse :=
  match b with
  | PageBody v' => Some v'
  | _ => None
  end.

Definition decodeItem (b : body) (l : List) : option List :=
  match b with
  | ItemBody l' => Some l'
  | _ => None
  end.

Definition message (b : body) : string :=
  match b with
  | Garbage raw => raw
  | _ => ""
  end.

Fixpoint hasSpace (s : string) : bool :=
  match s with
  | EmptyString => false
  | String c rest => (Ascii.eqb c " "%char) || hasSpace rest
  end.

Fixpoint encodeQuery (ps : list (string * string)) : string :=
  match ps with
  | [] => ""
  | [(k, v)] => k ++ "=" ++ v
  | (k, v) :: rest => k ++ "=" ++ v ++ "&" ++ encodeQuery rest
  end.

(** The URL builder of the double: it rejects a base URL with a space in it
    and otherwise appends the parameters as a query string. *)
Definition generate (r : httpRequest) : string * option error :=
  if hasSpace (URL r) then ("", Some (UrlError "invalid character in host name"))
  else match Parameters r with
       | [] => (URL r, None)
       | ps => (URL r ++ "?" ++ encodeQuery ps, None)
       end.

Definition transport (firstLink : string) : Transport nat body :=
  mkTransport nat body (serve firstLink) decodePage decodeItem message
              (fun m endpoint => ApiBase m ++ "/" ++ endpoint) generate.

Definition env (firstLink : string) : Collaborators nat (option body) :=
  specCollaborators (transport firstLink).

Definition account : Mailgun := mkMailgun base "key-0123" 1.
Definition badAccount : Mailgun := mkMailgun "https://api mailgun.net/v3" "key-0123" 1.

Definition net0 : Net nat := mkNet 0%nat [].

(** A freshly constructed iterator with page size 2, and the store around
    it: the out slot is empty, nothing has been sent. *)
Definition fresh (firstLink : string) : Store nat :=
  mkStore (fst (ListMailingLists (env firstLink) account (Some (mkListsOptions 2)) net0))
          [] net0.

Definition anError : error := TransportError "connection reset".

(** The same iterator after an earlier failure. *)
Definition failed (firstLink : string) : Store nat :=
  setErr (Some anError) (fresh firstLink).

(** A store whose cursor points at the malformed page. *)
Definition atBroken : Store nat :=
  mkStore (mkListsIterator
             (mkListsResponse [listA]
                (Paging.mk startUrl brokenUrl brokenUrl lastUrl))
             account None)
          [] net0.

(** A store whose cursor points at pages the server answers empty. *)
Definition atEnd : Store nat :=
  mkStore (mkListsIterator
             (mkListsResponse [listA; listB]
                (Paging.mk nextUrl nextUrl prevUrl lastUrl))
             account None)
          [listA; listB] net0.

End Stub.


(** ** GetMailingList, DeleteMailingList *)

(** [var envelope struct { List `json:"list"` }] *)
Record envelope : Type := mkEnvelope { envelopeList : List }.

(** The helpers the two remaining operations call, declared in other files of
    the package; parameters of the model like the ones above.
    [parseEnvelopeFromJSON] is [parseFromJSON] at the envelope type. *)
Record ItemCollaborators (World Response : Type) : Type := mkItemCollaborators {
  makeGetRequest : httpRequest -> World -> (Response * option error) * World;
  makeDeleteRequest : httpRequest -> World -> (Response * option error) * World;
  parseEnvelopeFromJSON : Response -> envelope -> envelope * option error
}.
Arguments makeGetRequest {World Response} _ _ _.
Arguments makeDeleteRequest {World Response} _ _ _.
Arguments parseEnvelopeFromJSON {World Response} _ _ _.

Section Items.

Context {World Response : Type}.
Variable env : Collaborators World Response.
Variable ienv : ItemCollaborators World Response.

Definition invokeGetRequest (r : httpRequest) (n : Net World)
  : (Response * option error) * Net World :=
  let '(res, w) := makeGetRequest ienv r (world n) in
  (res, mkNet w (calls n ++ [mkCall GET r None])%list).

Definition invokeDelete (r : httpRequest) (n : Net World)
  : (Response * option error) * Net World :=
  let '(res, w) := makeDeleteRequest ienv r (world n) in
  (res, mkNet w (calls n ++ [mkCall DELETE r None])%list).

Definition DeleteMailingList (m : Mailgun) (addr : string) (n : Net World)
  : option error * Net World :=
  let r := newHTTPRequest
             (generatePublicApiUrl env m (listsEndpoint env) ++ "/" ++ addr) in
  let r := setClient r (Client m) in
  let r := setBasicAuth r (basicAuthUser env) (APIKey m) in
  let '((_, e), n) := invokeDelete r n in
  (e, n).

Definition GetMailingList (m : Mailgun) (addr : string) (n : Net World)
  : (List * option error) * Net World :=
  let r := newHTTPRequest
             (generatePublicApiUrl env m (listsEndpoint env) ++ "/" ++ addr) in
  let r := setClient r (Client m) in
  let r := setBasicAuth r (basicAuthUser env) (APIKey m) in
  let '((response, e), n) := invokeGetRequest r n in
  match e with
  | Some _ => ((zeroList, e), n)
  | None =>
    let '(ev, e) := parseEnvelopeFromJSON ienv response (mkEnvelope zeroList) in
    ((envelopeList ev, e), n)
  end.

End Items.

(** A log entry as [fetch] produces them for iterator [it]: a GET without
    payload whose request is the one [fetch] builds for its URL. *)
Definition sentByFetch {World Response : Type} (env : Collaborators World Response)
           (it : ListsIterator) (c : call) : Prop :=
  callMethod c = GET /\
  callPayload c = None /\
  callRequest c = fetchRequest env (URL (callRequest c)) it.

(** Modelled from the spec: [makeGetRequest] and [makeDeleteRequest] are
    defined in another file of the package.  One authenticated request
    without body; the response, or an error on transport failure or non-2xx
    status. *)
Definition specRequest {World Body : Type} (T : Transport World Body) (m : method)
           (r : httpRequest) (w : World) : (option Body * option error) * World :=
  match roundTrip T m r None w with
  | (TransportFailed msg, w') => ((None, Some (TransportError msg)), w')
  | (Responded status body, w') =>
    if is2xx status then ((Some body, None), w')
    else ((None, Some (StatusError status (serverMessage T body))), w')
  end.

(** Modelled from the spec: [parseFromJSON] at the envelope type, defined in
    another file of the package.  A single-item response is a JSON object
    with the item nested under the resource's singular name; it is decoded
    into the envelope's list, or a decode error is reported. *)
Definition specParseEnvelope {World Body : Type} (T : Transport World Body)
           (response : option Body) (ev : envelope) : envelope * option error :=
  match response with
  | Some body =>
    match decodeList T body (envelopeList ev) with
    | Some l => (mkEnvelope l, None)
    | None => (ev, Some (DecodeError "malformed item"))
    end
  | None => (ev, Some (DecodeError "no response"))
  end.

Definition specItemCollaborators {World Body : Type} (T : Transport World Body)
  : ItemCollaborators World (option Body) :=
  mkItemCollaborators World (option Body)
    (specRequest T GET) (specRequest T DELETE) (specParseEnvelope T).

(** ** A server that is down

    Every round trip fails at the transport. *)

Module Offline.

Definition serve (m : method) (r : httpRequest) (p : option urlEncodedPayload)
           (w : nat) : httpResult Stub.body * nat :=
  (TransportFailed "connection refused", S w).

Definition transport : Transport nat Stub.body :=
  mkTransport nat Stub.body serve Stub.decodePage Stub.decodeItem Stub.message
              (fun m endpoint => ApiBase m ++ "/" ++ endpoint) Stub.generate.

Definition env : Collaborators nat (option Stub.body) := specCollaborators transport.

Definition ienv : ItemCollaborators nat (option Stub.body) :=
  specItemCollaborators transport.

Definition refused : error := TransportError "connection refused".

End Offline.

(** * Properties *)

(** ** How the methods unfold *)

Section Unfolding.

Context {World Response : Type}.
Variable env : Collaborators World Response.

Lemma fetch_eq (url : string) (s : Store World) :
  fetch env url s =
  (snd (fetchAnswer env url s),
   mkStore (setResp (fst (fetchAnswer env url s)) (li s)) (items s)
           (mkNet (fetchWorld env url s)
                  (calls (net s) ++ [fetchCall env url s])%list)).
Proof.
  unfold fetch, invokeGet, fetchAnswer, fetchWorld, fetchCall.
  destruct (getResponseFromJSON env (fetchRequest env url (li s))
                                (resp (li s)) (world (net s))) as [[v e] w].
  reflexivity.
Qed.

(** With a sticky error, the four boolean methods return at their first
    line. *)
Lemma navigate_failed (op : nav) (s : Store World) (e : error) :
  err (li s) = Some e -> navigate env op s = (false, s).
Proof.
  intros He.
  destruct op; cbn [navigate]; unfold First, Next, Previous, Last;
    rewrite He; reflexivity.
Qed.

(** Without a sticky error (and, for [Previous], with a previous link), a
    boolean method fetches its cursor field and then branches on the
    error. *)
Lemma navigate_fetches (op : nav) (s : Store World) :
  err (li s) = None ->
  (op = NavPrevious -> Paging.Previous (Paging (resp (li s))) <> "") ->
  navigate env op s =
  let url := navTarget op (Paging (resp (li s))) in
  let s1 := afterFetch env url s in
  match snd (fetchAnswer env url s) with
  | Some _ => (false, s1)
  | None =>
    (match op with
     | NavFirst | NavLast => true
     | NavNext | NavPrevious =>
       negb (length (Lists (fst (fetchAnswer env url s))) =? 0)%nat
     end,
     setItems (Lists (fst (fetchAnswer env url s))) s1)
  end.
Proof.
  intros He Hprev.
  destruct op; cbn [navigate navTarget]; unfold First, Next, Previous, Last;
    rewrite He.
  4: { rewrite fetch_eq. unfold afterFetch, setErr, setItems, setResp. cbn.
       destruct (snd (fetchAnswer env _ s)); reflexivity. }
  3: { destruct (String.eqb_spec (Paging.Previous (Paging (resp (li s)))) "")
         as [Heq | Hne].
       - exfalso. apply Hprev; [reflexivity | exact Heq].
       - rewrite fetch_eq. unfold afterFetch, setErr, setItems, setResp. cbn.
         destruct (snd (fetchAnswer env _ s)); [reflexivity |].
         destruct (length _ =? 0)%nat; reflexivity. }
  - rewrite fetch_eq. unfold afterFetch, setErr, setItems, setResp. cbn.
    destruct (snd (fetchAnswer env _ s)); reflexivity.
  - rewrite fetch_eq. unfold afterFetch, setErr, setItems, setResp. cbn.
    destruct (snd (fetchAnswer env _ s)); [reflexivity |].
    destruct (length _ =? 0)%nat; reflexivity.
Qed.

(** [Previous] also returns early on an empty previous link. *)
Lemma Previous_guard (s : Store World) :
  err (li s) = None ->
  Paging.Previous (Paging (resp (li s))) = "" ->
  Previous env s = (false, s).
Proof.
  intros He Hp. unfold Previous. rewrite He, Hp. reflexivity.
Qed.

End Unfolding.

(** ** The failed state *)

(** C1 (amended).  With a sticky error, [First], [Next], [Previous] and
    [Last] return false at once: nothing is sent and the whole store, stored
    error included, is as before.  [GetNext] and [GetPrevious] do not look at
    the sticky error: they send their fetch, return what it answers, and
    leave the stored error as it was. *)
Theorem C1_navigation_with_sticky_error
        {World Response : Type} (env : Collaborators World Response)
        (s : Store World) (e : error) :
  err (li s) = Some e ->
  (forall op : nav, navigate env op s = (false, s)) /\
  (fst (GetNext env s)
   = snd (fetchAnswer env (Paging.Next (Paging (resp (li s)))) s) /\
   calls (net (snd (GetNext env s)))
   = (calls (net s) ++ [fetchCall env (Paging.Next (Paging (resp (li s)))) s])%list /\
   Err (li (snd (GetNext env s))) = Some e) /\
  (fst (GetPrevious env s)
   = snd (fetchAnswer env (Paging.Previous (Paging (resp (li s)))) s) /\
   calls (net (snd (GetPrevious env s)))
   = (calls (net s) ++ [fetchCall env (Paging.Previous (Paging (resp (li s)))) s])%list /\
   Err (li (snd (GetPrevious env s))) = Some e).
Proof.
  intros He. split; [| split].
  - intros op. exact (navigate_failed env op s e He).
  - unfold GetNext. rewrite fetch_eq. cbn. repeat split. exact He.
  - unfold GetPrevious. rewrite fetch_eq. cbn. repeat split. exact He.
Qed.

Lemma C1_navigation_with_sticky_error_witness :
  err (li (Stub.failed Stub.startUrl)) = Some Stub.anError /\
  navigate (Stub.env Stub.startUrl) NavNext (Stub.failed Stub.startUrl)
  = (false, Stub.failed Stub.startUrl) /\
  Err (li (snd (GetNext (Stub.env Stub.startUrl) (Stub.failed Stub.startUrl))))
  = Some Stub.anError.
Proof.
  pose proof (C1_navigation_with_sticky_error
                (Stub.env Stub.startUrl) (Stub.failed Stub.startUrl)
                Stub.anError eq_refl) as [Hnav [[_ [_ Hnext]] _]].
  split; [reflexivity |]. split; [exact (Hnav NavNext) | exact Hnext].
Defined.

(** C1, as stated, fails for [GetNext]: on an iterator whose sticky error is
    set, it sends a request and returns nil. *)
Lemma C1_GetNext_fetches_despite_sticky_error :
  err (li (Stub.failed Stub.startUrl)) = Some Stub.anError /\
  calls (net (Stub.failed Stub.startUrl)) = [] /\
  fst (GetNext (Stub.env Stub.startUrl) (Stub.failed Stub.startUrl)) = None /\
  calls (net (snd (GetNext (Stub.env Stub.startUrl) (Stub.failed Stub.startUrl))))
  = [mkCall GET (mkRequest Stub.startUrl [] (Some 1%nat) "api" "key-0123") None].
Proof. repeat split. Qed.

(** ** Errors of a fetch *)

(** C2 (amended).  When the fetch of [First], [Next], [Previous] or [Last]
    answers an error, that error becomes the sticky error read by [Err] and
    the call returns false.  When the fetch of [GetNext] or [GetPrevious]
    answers an error, the call returns that error and the sticky error is
    left as it was. *)
Theorem C2_fetch_error_propagation
        {World Response : Type} (env : Collaborators World Response)
        (s : Store World) (e : error) :
  (forall op : nav,
      err (li s) = None ->
      (op = NavPrevious -> Paging.Previous (Paging (resp (li s))) <> "") ->
      snd (fetchAnswer env (navTarget op (Paging (resp (li s)))) s) = Some e ->
      fst (navigate env op s) = false /\
      Err (li (snd (navigate env op s))) = Some e) /\
  (snd (fetchAnswer env (Paging.Next (Paging (resp (li s)))) s) = Some e ->
   fst (GetNext env s) = Some e /\
   Err (li (snd (GetNext env s))) = Err (li s)) /\
  (snd (fetchAnswer env (Paging.Previous (Paging (resp (li s)))) s) = Some e ->
   fst (GetPrevious env s) = Some e /\
   Err (li (snd (GetPrevious env s))) = Err (li s)).
Proof.
  split; [| split].
  - intros op He Hprev Hans.
    rewrite (navigate_fetches env op s He Hprev). cbn zeta.
    rewrite Hans. cbn. split; [reflexivity | exact Hans].
  - intros Hans. unfold GetNext. rewrite fetch_eq. cbn.
    split; [exact Hans | reflexivity].
  - intros Hans. unfold GetPrevious. rewrite fetch_eq. cbn.
    split; [exact Hans | reflexivity].
Qed.

Lemma C2_fetch_error_propagation_witness :
  (fst (navigate (Stub.env Stub.startUrl) NavNext Stub.atBroken) = false /\
   Err (li (snd (navigate (Stub.env Stub.startUrl) NavNext Stub.atBroken)))
   = Some (DecodeError "malformed page")) /\
  (fst (GetNext (Stub.env Stub.startUrl) Stub.atBroken)
   = Some (DecodeError "malformed page") /\
   Err (li (snd (GetNext (Stub.env Stub.startUrl) Stub.atBroken))) = Err (li Stub.atBroken)) /\
  (fst (GetPrevious (Stub.env Stub.startUrl) Stub.atBroken)
   = Some (DecodeError "malformed page") /\
   Err (li (snd (GetPrevious (Stub.env Stub.startUrl) Stub.atBroken))) = Err (li Stub.atBroken)).
Proof.
  pose proof (C2_fetch_error_propagation
                (Stub.env Stub.startUrl) Stub.atBroken (DecodeError "malformed page"))
    as [Hnav [Hnext Hprev]].
  split; [| split].
  - apply (Hnav NavNext); [reflexivity | discriminate | reflexivity].
  - apply Hnext. reflexivity.
  - apply Hprev. reflexivity.
Defined.

(** C2, as stated, fails for [GetNext]: its fetch answers an error, the call
    returns it, and [Err] still reports none. *)
Lemma C2_GetNext_does_not_store_error :
  fst (GetNext (Stub.env Stub.startUrl) Stub.atBroken)
  = Some (DecodeError "malformed page") /\
  Err (li (snd (GetNext (Stub.env Stub.startUrl) Stub.atBroken))) = None.
Proof. split; reflexivity. Qed.

(** ** Empty pages and empty links *)

(** C5.  When the fetch succeeds with an empty page, [Next] and [Previous]
    return false, [First] (and [Last]) return true, and the out slot holds
    zero items. *)
Theorem C5_empty_page
        {World Response : Type} (env : Collaborators World Response)
        (op : nav) (s : Store World) (v : listsResponse) :
  err (li s) = None ->
  (op = NavPrevious -> Paging.Previous (Paging (resp (li s))) <> "") ->
  fetchAnswer env (navTarget op (Paging (resp (li s)))) s = (v, None) ->
  Lists v = [] ->
  fst (navigate env op s)
  = match op with
    | NavFirst | NavLast => true
    | NavNext | NavPrevious => false
    end /\
  items (snd (navigate env op s)) = [] /\
  Err (li (snd (navigate env op s))) = None.
Proof.
  intros He Hprev Hans Hempty.
  rewrite (navigate_fetches env op s He Hprev). cbn zeta.
  unfold afterFetch, setItems. rewrite !Hans. cbn. rewrite Hempty. cbn.
  destruct op; repeat split.
Qed.

Lemma C5_empty_page_witness :
  (fst (navigate (Stub.env Stub.startUrl) NavNext Stub.atEnd) = false /\
   items (snd (navigate (Stub.env Stub.startUrl) NavNext Stub.atEnd)) = [] /\
   Err (li (snd (navigate (Stub.env Stub.startUrl) NavNext Stub.atEnd))) = None) /\
  (fst (navigate (Stub.env Stub.startUrl) NavPrevious Stub.atEnd) = false /\
   items (snd (navigate (Stub.env Stub.startUrl) NavPrevious Stub.atEnd)) = [] /\
   Err (li (snd (navigate (Stub.env Stub.startUrl) NavPrevious Stub.atEnd))) = None) /\
  (fst (navigate (Stub.env Stub.startUrl) NavFirst Stub.atEnd) = true /\
   items (snd (navigate (Stub.env Stub.startUrl) NavFirst Stub.atEnd)) = [] /\
   Err (li (snd (navigate (Stub.env Stub.startUrl) NavFirst Stub.atEnd))) = None).
Proof.
  split; [| split].
  - apply (C5_empty_page (Stub.env Stub.startUrl) NavNext Stub.atEnd
                         (Stub.emptyPage Stub.startUrl));
      [reflexivity | discriminate | reflexivity | reflexivity].
  - apply (C5_empty_page (Stub.env Stub.startUrl) NavPrevious Stub.atEnd
                         (Stub.emptyPage Stub.startUrl));
      [reflexivity | intros _; discriminate | reflexivity | reflexivity].
  - apply (C5_empty_page (Stub.env Stub.startUrl) NavFirst Stub.atEnd
                         (Stub.emptyPage Stub.startUrl));
      [reflexivity | discriminate | reflexivity | reflexivity].
Defined.

(** C6.  [Previous] on an iterator without sticky error and with an empty
    previous link returns false; nothing is sent, and page, cursor, error and
    out slot are as before. *)
Theorem C6_Previous_without_previous_link
        {World Response : Type} (env : Collaborators World Response)
        (s : Store World) :
  err (li s) = None ->
  Paging.Previous (Paging (resp (li s))) = "" ->
  Previous env s = (false, s).
Proof. exact (Previous_guard env s). Qed.

Lemma C6_Previous_without_previous_link_witness :
  Previous (Stub.env Stub.startUrl) (Stub.fresh Stub.startUrl)
  = (false, Stub.fresh Stub.startUrl).
Proof.
  apply (C6_Previous_without_previous_link
           (Stub.env Stub.startUrl) (Stub.fresh Stub.startUrl));
    reflexivity.
Defined.

(** C7 (amended).  Only [Previous] looks at its cursor field before
    fetching: with an empty previous link it returns false and sends nothing.
    [First], [Next] and [Last] (without sticky error) and [GetNext] and
    [GetPrevious] (always) hand their cursor field to [fetch] even when it is
    empty, and a request for the empty URL is sent. *)
Theorem C7_empty_cursor_field
        {World Response : Type} (env : Collaborators World Response)
        (op : operation) (s : Store World) :
  opTarget op (Paging (resp (li s))) = "" ->
  (forall n : nav, op = Nav n -> err (li s) = None) ->
  match op with
  | Nav NavPrevious => perform env op s = (Flag false, s)
  | _ =>
    calls (net (snd (perform env op s)))
    = (calls (net s) ++ [fetchCall env "" s])%list /\
    URL (callRequest (fetchCall env "" s)) = ""
  end.
Proof.
  intros Hempty Hok.
  destruct op as [n | |]; cbn [perform opTarget] in *.
  - pose proof (Hok n eq_refl) as He.
    destruct n.
    3: { cbn [navigate navTarget] in *. rewrite (Previous_guard env s He Hempty).
         reflexivity. }
    all: split; [| reflexivity].
    all: destruct (navigate env _ s) as [b s'] eqn:Hrun.
    all: rewrite navigate_fetches in Hrun by (assumption || discriminate).
    all: cbn zeta in Hrun; rewrite Hempty in Hrun.
    all: destruct (snd (fetchAnswer env "" s));
      inversion Hrun; subst; reflexivity.
  - unfold GetNext. rewrite fetch_eq, Hempty. split; reflexivity.
  - unfold GetPrevious. rewrite fetch_eq, Hempty. split; reflexivity.
Qed.

Lemma C7_empty_cursor_field_witness :
  (perform (Stub.env Stub.startUrl) (Nav NavPrevious) (Stub.fresh Stub.startUrl)
   = (Flag false, Stub.fresh Stub.startUrl)) /\
  (calls (net (snd (perform (Stub.env Stub.startUrl) (Nav NavLast)
                            (Stub.fresh Stub.startUrl))))
   = (calls (net (Stub.fresh Stub.startUrl))
      ++ [fetchCall (Stub.env Stub.startUrl) "" (Stub.fresh Stub.startUrl)])%list /\
   URL (callRequest (fetchCall (Stub.env Stub.startUrl) ""
                               (Stub.fresh Stub.startUrl))) = "").
Proof.
  split.
  - apply (C7_empty_cursor_field (Stub.env Stub.startUrl) (Nav NavPrevious)
                                 (Stub.fresh Stub.startUrl));
      [reflexivity | intros n _; reflexivity].
  - apply (C7_empty_cursor_field (Stub.env Stub.startUrl) (Nav NavLast)
                                 (Stub.fresh Stub.startUrl));
      [reflexivity | intros n _; reflexivity].
Defined.

(** C7, as stated, fails for [Last]: called on a freshly constructed
    iterator, whose last link is empty, it sends a request for the empty
    URL. *)
Lemma C7_Last_fetches_empty_url :
  Paging.Last (Paging (resp (li (Stub.fresh Stub.startUrl)))) = "" /\
  calls (net (Stub.fresh Stub.startUrl)) = [] /\
  calls (net (snd (Last (Stub.env Stub.startUrl) (Stub.fresh Stub.startUrl))))
  = [mkCall GET (mkRequest "" [] (Some 1%nat) "api" "key-0123") None].
Proof. repeat split. Qed.

(** ** Construction *)

(** C4.  Whatever the options, [ListMailingLists] sends nothing, and the
    iterator it returns has [first] and [next] equal to the generated URL,
    empty [previous] and [last], and no items. *)
Theorem C4_construction
        {World Response : Type} (env : Collaborators World Response)
        (m : Mailgun) (opts : option ListsOptions) (n : Net World) :
  let url := fst (generateUrlWithParameters env (listRequest env m opts)) in
  let it := fst (ListMailingLists env m opts n) in
  snd (ListMailingLists env m opts n) = n /\
  Paging.First (Paging (resp it)) = url /\
  Paging.Next (Paging (resp it)) = url /\
  Paging.Previous (Paging (resp it)) = "" /\
  Paging.Last (Paging (resp it)) = "" /\
  Lists (resp it) = [].
Proof.
  unfold ListMailingLists.
  destruct (generateUrlWithParameters env (listRequest env m opts)) as [url e].
  cbn. repeat split.
Qed.

(** The limit is the only option, added to the request when it is not 0. *)
Lemma listRequest_parameters
      {World Response : Type} (env : Collaborators World Response)
      (m : Mailgun) (opts : option ListsOptions) :
  Parameters (listRequest env m opts)
  = match opts with
    | Some o => if (Limit o =? 0)%Z then [] else [("limit", Itoa (Limit o))]
    | None => []
    end.
Proof.
  unfold listRequest. destruct opts as [o |]; [| reflexivity].
  destruct (Limit o =? 0)%Z; reflexivity.
Qed.

Lemma navigateAll_failed
      {World Response : Type} (env : Collaborators World Response)
      (ops : list nav) (s : Store World) (e : error) :
  err (li s) = Some e ->
  navigateAll env ops s = (map (fun _ => false) ops, s).
Proof.
  intros He. induction ops as [| op rest IH]; [reflexivity |].
  cbn [navigateAll map]. rewrite (navigate_failed env op s e He), IH.
  reflexivity.
Qed.

(** C10.  When URL generation fails, the iterator comes out of
    [ListMailingLists] with that error as its sticky error: [Err] returns it,
    and any sequence of [First], [Next], [Previous], [Last] calls returns
    false every time, sends nothing and changes nothing. *)
Theorem C10_construction_in_failed_state
        {World Response : Type} (env : Collaborators World Response)
        (m : Mailgun) (opts : option ListsOptions) (n : Net World)
        (url : string) (e : error) :
  generateUrlWithParameters env (listRequest env m opts) = (url, Some e) ->
  Err (fst (ListMailingLists env m opts n)) = Some e /\
  forall (ops : list nav) (out : list List) (n' : Net World),
    navigateAll env ops (mkStore (fst (ListMailingLists env m opts n)) out n')
    = (map (fun _ => false) ops,
       mkStore (fst (ListMailingLists env m opts n)) out n').
Proof.
  intros Hgen.
  assert (Herr : err (fst (ListMailingLists env m opts n)) = Some e).
  { unfold ListMailingLists. rewrite Hgen. reflexivity. }
  split; [exact Herr |].
  intros ops out n'. apply (navigateAll_failed env ops _ e). exact Herr.
Qed.

Lemma C10_construction_in_failed_state_witness :
  Err (fst (ListMailingLists (Stub.env Stub.startUrl) Stub.badAccount None Stub.net0))
  = Some (UrlError "invalid character in host name") /\
  navigateAll (Stub.env Stub.startUrl) [NavFirst; NavNext; NavPrevious; NavLast]
    (mkStore (fst (ListMailingLists (Stub.env Stub.startUrl) Stub.badAccount None
                                    Stub.net0))
             [] Stub.net0)
  = ([false; false; false; false],
     mkStore (fst (ListMailingLists (Stub.env Stub.startUrl) Stub.badAccount None
                                    Stub.net0))
             [] Stub.net0).
Proof.
  pose proof (C10_construction_in_failed_state
                (Stub.env Stub.startUrl) Stub.badAccount None Stub.net0
                "" (UrlError "invalid character in host name") eq_refl)
    as [Herr Hall].
  split; [exact Herr |].
  exact (Hall [NavFirst; NavNext; NavPrevious; NavLast] [] Stub.net0).
Defined.

(** ** The first link *)

(** A navigation method leaves the page and cursor alone or leaves there
    what its fetch decoded. *)
Lemma perform_resp
      {World Response : Type} (env : Collaborators World Response)
      (op : operation) (s : Store World) :
  resp (li (snd (perform env op s))) = resp (li s) \/
  resp (li (snd (perform env op s)))
  = fst (fetchAnswer env (opTarget op (Paging (resp (li s)))) s).
Proof.
  destruct op as [n | |]; cbn [perform opTarget].
  - destruct (err (li s)) as [e |] eqn:He.
    + left. rewrite (navigate_failed env n s e He). reflexivity.
    + destruct (String.eqb_spec (Paging.Previous (Paging (resp (li s)))) "")
        as [Hp | Hp].
      * destruct n.
        3: { left. cbn [navigate]. rewrite (Previous_guard env s He Hp).
             reflexivity. }
        all: right; rewrite navigate_fetches by (assumption || discriminate).
        all: cbn zeta; destruct (snd (fetchAnswer env _ s)); reflexivity.
      * right. rewrite navigate_fetches by (assumption || (intros _; exact Hp)).
        cbn zeta. destruct (snd (fetchAnswer env _ s)); reflexivity.
  - right. unfold GetNext. rewrite fetch_eq. reflexivity.
  - right. unfold GetPrevious. rewrite fetch_eq. reflexivity.
Qed.

(** C3 (amended).  At construction the cursor's [first] link is the
    generated starting URL.  Navigation does not protect it: every fetch
    hands the whole page and cursor to the decoder.  It keeps its value [u]
    through any sequence of navigation calls provided every fetch leaves [u]
    in place. *)
Theorem C3_first_link
        {World Response : Type} (env : Collaborators World Response)
        (m : Mailgun) (opts : option ListsOptions) (n : Net World) (u : string) :
  Paging.First (Paging (resp (fst (ListMailingLists env m opts n))))
  = fst (generateUrlWithParameters env (listRequest env m opts)) /\
  ((forall (r : httpRequest) (v : listsResponse) (w : World),
       Paging.First (Paging v) = u ->
       Paging.First (Paging (fst (fst (getResponseFromJSON env r v w)))) = u) ->
   forall (ops : list operation) (s : Store World),
     firstOf s = u -> firstOf (snd (performAll env ops s)) = u).
Proof.
  split.
  - unfold ListMailingLists.
    destruct (generateUrlWithParameters env (listRequest env m opts)); reflexivity.
  - intros Hkeep ops. induction ops as [| op rest IH]; intros s Hs.
    + exact Hs.
    + cbn [performAll].
      destruct (perform env op s) as [o s1] eqn:Hrun.
      specialize (IH s1).
      destruct (performAll env rest s1) as [os s2]. cbn [snd] in *.
      apply IH. unfold firstOf.
      pose proof (perform_resp env op s) as Hresp. rewrite Hrun in Hresp.
      cbn [snd] in Hresp. destruct Hresp as [Hsame | Hnew].
      * rewrite Hsame. exact Hs.
      * rewrite Hnew. unfold fetchAnswer. apply Hkeep. exact Hs.
Qed.

(** The double keeps the first link when that is the link it serves. *)
Lemma Stub_keeps_first (r : httpRequest) (v : listsResponse) (w : nat) :
  Paging.First (Paging v) = Stub.startUrl ->
  Paging.First
    (Paging (fst (fst (getResponseFromJSON (Stub.env Stub.startUrl) r v w))))
  = Stub.startUrl.
Proof.
  intros Hv. cbn [getResponseFromJSON Stub.env specCollaborators].
  unfold specGetResponseFromJSON. cbn [roundTrip Stub.transport Stub.serve].
  destruct (URL r =? ""); [exact Hv |].
  destruct ((URL r =? Stub.startUrl) || (URL r =? Stub.startUrl)
            || (URL r =? Stub.lastUrl)); [reflexivity |].
  destruct ((URL r =? Stub.nextUrl) || (URL r =? Stub.prevUrl)); [reflexivity |].
  destruct (URL r =? Stub.brokenUrl); exact Hv.
Qed.

Lemma C3_first_link_witness :
  Paging.First
    (Paging (resp (fst (ListMailingLists (Stub.env Stub.startUrl) Stub.account
                                         (Some (mkListsOptions 2)) Stub.net0))))
  = Stub.startUrl /\
  firstOf (snd (performAll (Stub.env Stub.startUrl)
                           [Nav NavFirst; Nav NavNext; GetPreviousOp; Nav NavLast]
                           (Stub.fresh Stub.startUrl)))
  = Stub.startUrl.
Proof.
  pose proof (C3_first_link (Stub.env Stub.startUrl) Stub.account
                            (Some (mkListsOptions 2)) Stub.net0 Stub.startUrl)
    as [Hnew Hkeep].
  split; [exact Hnew |].
  apply (Hkeep Stub_keeps_first). reflexivity.
Defined.

(** C3, as stated, fails: the server's page carries its own [first] link,
    and after [First] the cursor's [first] is that link, not the starting
    URL. *)
Lemma C3_First_overwrites_first_link :
  firstOf (Stub.fresh Stub.pagedFirstUrl) = Stub.startUrl /\
  fst (First (Stub.env Stub.pagedFirstUrl) (Stub.fresh Stub.pagedFirstUrl)) = true /\
  firstOf (snd (First (Stub.env Stub.pagedFirstUrl) (Stub.fresh Stub.pagedFirstUrl)))
  = Stub.pagedFirstUrl /\
  Stub.pagedFirstUrl <> Stub.startUrl.
Proof. repeat split. discriminate. Qed.

(** ** Failed fetches *)

(** The modelled fetcher leaves its target alone when it reports an error. *)
Lemma specGetResponseFromJSON_failure
      {World Body : Type} (T : Transport World Body)
      (r : httpRequest) (v : listsResponse) (w : World) (e : error) :
  snd (fst (specGetResponseFromJSON T r v w)) = Some e ->
  fst (fst (specGetResponseFromJSON T r v w)) = v.
Proof.
  unfold specGetResponseFromJSON.
  destruct (roundTrip T GET r None w) as [[msg | status body] w'].
  - reflexivity.
  - destruct (is2xx status); [| reflexivity].
    destruct (decodeLists T body v); [discriminate | reflexivity].
Qed.

(** C9.  When the fetch of a navigation method fails (transport failure,
    non-2xx status or malformed body), the iterator's page and cursor and the
    caller's out slot are as they were before the call. *)
Theorem C9_failed_fetch_leaves_page_and_slot
        {World Body : Type} (T : Transport World Body)
        (op : operation) (s : Store World) (e : error) :
  snd (fetchAnswer (specCollaborators T) (opTarget op (Paging (resp (li s)))) s)
  = Some e ->
  resp (li (snd (perform (specCollaborators T) op s))) = resp (li s) /\
  items (snd (perform (specCollaborators T) op s)) = items s.
Proof.
  intros Hfail.
  assert (Hsame : fst (fetchAnswer (specCollaborators T)
                                   (opTarget op (Paging (resp (li s)))) s)
                  = resp (li s)).
  { unfold fetchAnswer in *. cbn [getResponseFromJSON specCollaborators] in *.
    exact (specGetResponseFromJSON_failure T _ _ _ e Hfail). }
  destruct op as [n | |]; cbn [perform opTarget] in *.
  - destruct (err (li s)) as [e0 |] eqn:He.
    + rewrite (navigate_failed _ n s e0 He). split; reflexivity.
    + destruct (String.eqb_spec (Paging.Previous (Paging (resp (li s)))) "")
        as [Hp | Hp].
      * destruct n.
        3: { cbn [navigate]. rewrite (Previous_guard _ s He Hp).
             split; reflexivity. }
        all: rewrite navigate_fetches by (assumption || discriminate).
        all: cbn zeta; rewrite Hfail; cbn; split; [exact Hsame | reflexivity].
      * rewrite navigate_fetches by (assumption || (intros _; exact Hp)).
        cbn zeta. rewrite Hfail. cbn. split; [exact Hsame | reflexivity].
  - unfold GetNext. rewrite fetch_eq. cbn. split; [exact Hsame | reflexivity].
  - unfold GetPrevious. rewrite fetch_eq. cbn. split; [exact Hsame | reflexivity].
Qed.

Lemma C9_failed_fetch_leaves_page_and_slot_witness :
  (resp (li (snd (perform (Stub.env Stub.startUrl) (Nav NavNext) Stub.atBroken)))
   = resp (li Stub.atBroken) /\
   items (snd (perform (Stub.env Stub.startUrl) (Nav NavNext) Stub.atBroken))
   = items Stub.atBroken) /\
  (resp (li (snd (perform (Stub.env Stub.startUrl) (Nav NavLast)
                          (Stub.fresh Stub.startUrl))))
   = resp (li (Stub.fresh Stub.startUrl)) /\
   items (snd (perform (Stub.env Stub.startUrl) (Nav NavLast)
                       (Stub.fresh Stub.startUrl)))
   = items (Stub.fresh Stub.startUrl)).
Proof.
  split.
  - apply (C9_failed_fetch_leaves_page_and_slot
             (Stub.transport Stub.startUrl) (Nav NavNext) Stub.atBroken
             (DecodeError "malformed page")).
    reflexivity.
  - apply (C9_failed_fetch_leaves_page_and_slot
             (Stub.transport Stub.startUrl) (Nav NavLast) (Stub.fresh Stub.startUrl)
             (TransportError "unsupported protocol scheme")).
    reflexivity.
Defined.

(** ** Payloads *)

(** What the four conditional [addValue] calls build. *)
Lemma payload_built (prototype : List) :
  (let p := newUrlEncodedPayload in
   let p := if negb (Address prototype =? "")
            then addValue p "address" (Address prototype) else p in
   let p := if negb (Name prototype =? "")
            then addValue p "name" (Name prototype) else p in
   let p := if negb (Description prototype =? "")
            then addValue p "description" (Description prototype) else p in
   if negb (AccessLevel prototype =? "")
   then addValue p "access_level" (AccessLevel prototype) else p)
  = nonEmptyFields prototype.
Proof.
  unfold nonEmptyFields, addValue, newUrlEncodedPayload. cbn [filter snd].
  destruct (Address prototype =? ""), (Name prototype =? ""),
           (Description prototype =? ""), (AccessLevel prototype =? "");
    reflexivity.
Qed.

Lemma CreateMailingList_calls
      {World Response : Type} (env : Collaborators World Response)
      (m : Mailgun) (prototype : List) (n : Net World) :
  calls (snd (CreateMailingList env m prototype n))
  = (calls n ++ [mkCall POST (createRequest env m)
                        (Some (nonEmptyFields prototype))])%list.
Proof.
  unfold CreateMailingList. pose proof (payload_built prototype) as Hp.
  cbv zeta in Hp |- *. rewrite Hp.
  unfold invokePost, createRequest.
  destruct (makePostRequest env _ _ (world n)) as [[response e] w].
  destruct e; reflexivity.
Qed.

Lemma UpdateMailingList_calls
      {World Response : Type} (env : Collaborators World Response)
      (m : Mailgun) (addr : string) (prototype : List) (n : Net World) :
  calls (snd (UpdateMailingList env m addr prototype n))
  = (calls n ++ [mkCall PUT (updateRequest env m addr)
                        (Some (nonEmptyFields prototype))])%list.
Proof.
  unfold UpdateMailingList. pose proof (payload_built prototype) as Hp.
  cbv zeta in Hp |- *. rewrite Hp.
  unfold invokePut, updateRequest.
  destruct (makePutRequest env _ _ (world n)) as [[response e] w].
  destruct e; reflexivity.
Qed.

Lemma nonEmptyFields_In (prototype : List) (k v : string) :
  In (k, v) (nonEmptyFields prototype) <->
  v <> "" /\
  ((k = "address" /\ v = Address prototype) \/
   (k = "name" /\ v = Name prototype) \/
   (k = "description" /\ v = Description prototype) \/
   (k = "access_level" /\ v = AccessLevel prototype)).
Proof.
  unfold nonEmptyFields. rewrite filter_In. cbn [In snd].
  rewrite negb_true_iff, String.eqb_neq.
  split.
  - intros [Hin Hne]. split; [exact Hne |].
    destruct Hin as [H | [H | [H | [H | []]]]]; inversion H; subst; auto.
  - intros [Hne Hin]. split; [| exact Hne].
    destruct Hin as [[-> ->] | [[-> ->] | [[-> ->] | [-> ->]]]]; auto.
Qed.

Lemma nonEmptyFields_keys_NoDup (prototype : List) :
  NoDup (map fst (nonEmptyFields prototype)).
Proof.
  unfold nonEmptyFields. cbn [filter snd].
  destruct (Address prototype =? ""), (Name prototype =? ""),
           (Description prototype =? ""), (AccessLevel prototype =? "");
    cbn [negb map fst];
    repeat (constructor; [cbn [In]; intuition discriminate |]);
    constructor.
Qed.

(** C8.  [CreateMailingList] and [UpdateMailingList] each send one request
    whose payload holds exactly the non-empty ones among address, name,
    description and access_level: a key is in the payload, once and with the
    prototype's value, exactly when that field is a non-empty string, and
    nothing of [CreatedAt] or [MembersCount] is sent. *)
Theorem C8_only_non_empty_fields_are_sent
        {World Response : Type} (env : Collaborators World Response)
        (m : Mailgun) (addr : string) (prototype : List) (n : Net World) :
  let p := nonEmptyFields prototype in
  calls (snd (CreateMailingList env m prototype n))
  = (calls n ++ [mkCall POST (createRequest env m) (Some p)])%list /\
  calls (snd (UpdateMailingList env m addr prototype n))
  = (calls n ++ [mkCall PUT (updateRequest env m addr) (Some p)])%list /\
  (forall k v : string,
      In (k, v) p <->
      v <> "" /\
      ((k = "address" /\ v = Address prototype) \/
       (k = "name" /\ v = Name prototype) \/
       (k = "description" /\ v = Description prototype) \/
       (k = "access_level" /\ v = AccessLevel prototype))) /\
  NoDup (map fst p) /\
  Parameters (createRequest env m) = [] /\
  Parameters (updateRequest env m addr) = [].
Proof.
  cbv zeta. split; [apply CreateMailingList_calls |].
  split; [apply UpdateMailingList_calls |].
  split; [intros k v; apply nonEmptyFields_In |].
  split; [apply nonEmptyFields_keys_NoDup |].
  split; reflexivity.
Qed.

(** A run: only the address and the description are set. *)
Example CreateMailingList_sends_two_fields :
  calls (snd (CreateMailingList (Stub.env Stub.startUrl) Stub.account
                                (mkList "x@example.com" "" "d" "" "never" 9)
                                Stub.net0))
  = [mkCall POST
            (mkRequest "https://api.mailgun.net/v3/lists" [] (Some 1%nat)
                       "api" "key-0123")
            (Some [("address", "x@example.com"); ("description", "d")])].
Proof. reflexivity. Qed.

(** * Further properties of the iterator *)

(** Each boolean method either returns false at a guard, leaving the store
    alone, or performs its fetch. *)
Lemma navigate_cases
      {World Response : Type} (env : Collaborators World Response)
      (op : nav) (s : Store World) :
  (navigate env op s = (false, s) /\
   (err (li s) <> None \/
    (op = NavPrevious /\ Paging.Previous (Paging (resp (li s))) = ""))) \/
  (err (li s) = None /\
   (op = NavPrevious -> Paging.Previous (Paging (resp (li s))) <> "") /\
   navigate env op s =
   let url := navTarget op (Paging (resp (li s))) in
   match snd (fetchAnswer env url s) with
   | Some _ => (false, afterFetch env url s)
   | None =>
     (match op with
      | NavFirst | NavLast => true
      | NavNext | NavPrevious =>
        negb (length (Lists (fst (fetchAnswer env url s))) =? 0)%nat
      end,
      setItems (Lists (fst (fetchAnswer env url s))) (afterFetch env url s))
   end).
Proof.
  destruct (err (li s)) as [e |] eqn:He.
  - left. split; [exact (navigate_failed env op s e He) | left; discriminate].
  - destruct (String.eqb_spec (Paging.Previous (Paging (resp (li s)))) "")
      as [Hp | Hp].
    + destruct op.
      3: { left. split; [exact (Previous_guard env s He Hp) | right; auto]. }
      all: right; split; [reflexivity |]; split; [discriminate |].
      all: rewrite navigate_fetches by (assumption || discriminate).
      all: reflexivity.
    + right. split; [reflexivity |]. split; [intros _; exact Hp |].
      rewrite navigate_fetches by (assumption || (intros _; exact Hp)).
      reflexivity.
Qed.

(** X3.  When a boolean method returns true, there was no sticky error, one
    request was sent and succeeded, the iterator holds the decoded page with
    no error, and the out slot holds exactly that page; for [Next] and
    [Previous] the page is not empty. *)
Theorem X3_true_means_page_delivered
        {World Response : Type} (env : Collaborators World Response)
        (op : nav) (s : Store World) :
  fst (navigate env op s) = true ->
  err (li s) = None /\
  Err (li (snd (navigate env op s))) = None /\
  fetchAnswer env (navTarget op (Paging (resp (li s)))) s
  = (resp (li (snd (navigate env op s))), None) /\
  items (snd (navigate env op s)) = Lists (resp (li (snd (navigate env op s)))) /\
  calls (net (snd (navigate env op s)))
  = (calls (net s) ++ [fetchCall env (navTarget op (Paging (resp (li s)))) s])%list /\
  (op = NavNext \/ op = NavPrevious ->
   Lists (resp (li (snd (navigate env op s)))) <> []).
Proof.
  intros Htrue.
  destruct (navigate_cases env op s) as [[Hrun _] | [He [_ Hrun]]].
  - rewrite Hrun in Htrue. discriminate.
  - split; [exact He |]. rewrite Hrun in *. cbv zeta in *.
    destruct (fetchAnswer env (navTarget op (Paging (resp (li s)))) s)
      as [v oe] eqn:Hans.
    cbn [fst snd] in *. destruct oe as [e |]; [discriminate |].
    unfold setItems, afterFetch. rewrite Hans. cbn.
    repeat split.
    intros Hop Hnil. rewrite Hnil in Htrue.
    destruct Hop as [-> | ->]; discriminate.
Qed.

Lemma X3_true_means_page_delivered_witness :
  Err (li (snd (navigate (Stub.env Stub.startUrl) NavNext (Stub.fresh Stub.startUrl))))
  = None /\
  items (snd (navigate (Stub.env Stub.startUrl) NavNext (Stub.fresh Stub.startUrl)))
  = [Stub.listA; Stub.listB].
Proof.
  pose proof (X3_true_means_page_delivered
                (Stub.env Stub.startUrl) NavNext (Stub.fresh Stub.startUrl) eq_refl)
    as [_ [Herr [_ [Hitems _]]]].
  split; [exact Herr |]. rewrite Hitems. reflexivity.
Defined.

(** X4.  [First] and [Last] return false only with an error: after a false
    return, [Err] is not nil. *)
Theorem X4_First_Last_false_means_error
        {World Response : Type} (env : Collaborators World Response)
        (op : nav) (s : Store World) :
  op = NavFirst \/ op = NavLast ->
  fst (navigate env op s) = false ->
  exists e : error, Err (li (snd (navigate env op s))) = Some e.
Proof.
  intros Hop Hfalse.
  destruct (navigate_cases env op s) as [[Hrun Hwhy] | [He [_ Hrun]]].
  - rewrite Hrun. cbn [snd]. unfold Err.
    destruct Hwhy as [Hne | [Hprev _]].
    + destruct (err (li s)) as [e |]; [exists e; reflexivity | contradiction].
    + destruct Hop as [-> | ->]; discriminate.
  - rewrite Hrun in *. cbv zeta in *.
    destruct (snd (fetchAnswer env (navTarget op (Paging (resp (li s)))) s))
      as [e |] eqn:Hans.
    + exists e. cbn. exact Hans.
    + destruct Hop as [-> | ->]; discriminate.
Qed.

Lemma X4_First_Last_false_means_error_witness :
  exists e : error,
    Err (li (snd (navigate (Stub.env Stub.startUrl) NavLast (Stub.fresh Stub.startUrl))))
    = Some e.
Proof.
  apply (X4_First_Last_false_means_error
           (Stub.env Stub.startUrl) NavLast (Stub.fresh Stub.startUrl));
    [right; reflexivity | reflexivity].
Defined.

(** X5.  When [Next] or [Previous] returns false and [Err] is nil afterwards,
    the iteration is exhausted: either [Previous] found no previous link and
    did nothing, or the request succeeded with an empty page, which is now
    the iterator's page and the content of the out slot. *)
Theorem X5_false_without_error_means_exhausted
        {World Response : Type} (env : Collaborators World Response)
        (op : nav) (s : Store World) :
  op = NavNext \/ op = NavPrevious ->
  fst (navigate env op s) = false ->
  Err (li (snd (navigate env op s))) = None ->
  (op = NavPrevious /\
   Paging.Previous (Paging (resp (li s))) = "" /\
   snd (navigate env op s) = s) \/
  (fetchAnswer env (navTarget op (Paging (resp (li s)))) s
   = (resp (li (snd (navigate env op s))), None) /\
   Lists (resp (li (snd (navigate env op s)))) = [] /\
   items (snd (navigate env op s)) = [] /\
   calls (net (snd (navigate env op s)))
   = (calls (net s) ++ [fetchCall env (navTarget op (Paging (resp (li s)))) s])%list).
Proof.
  intros Hop Hfalse Hnil.
  destruct (navigate_cases env op s) as [[Hrun Hwhy] | [He [_ Hrun]]].
  - left. rewrite Hrun in *. cbn [snd] in *. unfold Err in Hnil.
    destruct Hwhy as [Hne | [Hprev Hlink]]; [contradiction |].
    repeat split; assumption.
  - right. rewrite Hrun in *. cbv zeta in *.
    destruct (fetchAnswer env (navTarget op (Paging (resp (li s)))) s)
      as [v oe] eqn:Hans.
    cbn [fst snd] in *.
    destruct oe as [e |].
    + cbn in Hnil. rewrite Hans in Hnil. discriminate.
    + assert (Hv : Lists v = []).
      { destruct Hop as [-> | ->]; cbn [fst] in Hfalse;
          destruct (Lists v); [reflexivity | discriminate
                               | reflexivity | discriminate]. }
      unfold setItems, afterFetch. rewrite Hans. cbn.
      repeat split; assumption.
Qed.

Lemma X5_false_without_error_means_exhausted_witness :
  (NavNext = NavPrevious /\
   Paging.Previous (Paging (resp (li Stub.atEnd))) = "" /\
   snd (navigate (Stub.env Stub.startUrl) NavNext Stub.atEnd) = Stub.atEnd) \/
  (fetchAnswer (Stub.env Stub.startUrl)
               (navTarget NavNext (Paging (resp (li Stub.atEnd)))) Stub.atEnd
   = (resp (li (snd (navigate (Stub.env Stub.startUrl) NavNext Stub.atEnd))), None) /\
   Lists (resp (li (snd (navigate (Stub.env Stub.startUrl) NavNext Stub.atEnd)))) = [] /\
   items (snd (navigate (Stub.env Stub.startUrl) NavNext Stub.atEnd)) = [] /\
   calls (net (snd (navigate (Stub.env Stub.startUrl) NavNext Stub.atEnd)))
   = (calls (net Stub.atEnd)
      ++ [fetchCall (Stub.env Stub.startUrl)
                    (navTarget NavNext (Paging (resp (li Stub.atEnd)))) Stub.atEnd])%list).
Proof.
  apply (X5_false_without_error_means_exhausted
           (Stub.env Stub.startUrl) NavNext Stub.atEnd);
    [left; reflexivity | reflexivity | reflexivity].
Defined.

(** One call of any of the six methods keeps a sticky error, and a boolean
    method then reports false. *)
Lemma perform_keeps_error
      {World Response : Type} (env : Collaborators World Response)
      (op : operation) (s : Store World) (e : error) :
  err (li s) = Some e ->
  err (li (snd (perform env op s))) = Some e /\
  (forall b : bool, fst (perform env op s) = Flag b -> b = false).
Proof.
  intros He. destruct op as [n | |]; cbn [perform].
  - rewrite (navigate_failed env n s e He). cbn. split; [exact He |].
    intros b Hb. inversion Hb. reflexivity.
  - unfold GetNext. rewrite fetch_eq. cbn. split; [exact He | discriminate].
  - unfold GetPrevious. rewrite fetch_eq. cbn. split; [exact He | discriminate].
Qed.

(** X6.  A sticky error is permanent: through any sequence of the six
    navigation methods [Err] keeps returning the same error, and every
    boolean method in the sequence returns false.  A successful [GetNext] or
    [GetPrevious] in between does not clear it. *)
Theorem X6_sticky_error_is_permanent
        {World Response : Type} (env : Collaborators World Response)
        (ops : list operation) (s : Store World) (e : error) :
  err (li s) = Some e ->
  Err (li (snd (performAll env ops s))) = Some e /\
  (forall b : bool, In (Flag b) (fst (performAll env ops s)) -> b = false).
Proof.
  revert s. induction ops as [| op rest IH]; intros s He.
  - split; [exact He | intros b []].
  - cbn [performAll].
    pose proof (perform_keeps_error env op s e He) as [He1 Hflag].
    destruct (perform env op s) as [o s1]. cbn [fst snd] in *.
    specialize (IH s1 He1). destruct IH as [IHerr IHflags].
    destruct (performAll env rest s1) as [os s2]. cbn [fst snd] in *.
    split; [exact IHerr |].
    intros b [Hhead | Htail].
    + apply Hflag. exact Hhead.
    + apply IHflags. exact Htail.
Qed.

Lemma X6_sticky_error_is_permanent_witness :
  Err (li (snd (performAll (Stub.env Stub.startUrl)
                           [GetNextOp; Nav NavNext; GetPreviousOp; Nav NavFirst]
                           (Stub.failed Stub.startUrl))))
  = Some Stub.anError.
Proof.
  apply (X6_sticky_error_is_permanent
           (Stub.env Stub.startUrl)
           [GetNextOp; Nav NavNext; GetPreviousOp; Nav NavFirst]
           (Stub.failed Stub.startUrl) Stub.anError).
  reflexivity.
Defined.

(** One call of any of the six methods keeps the account handle and sends
    nothing or the one request [fetch] builds for its cursor field. *)
Lemma perform_step
      {World Response : Type} (env : Collaborators World Response)
      (op : operation) (s : Store World) :
  mg (li (snd (perform env op s))) = mg (li s) /\
  (calls (net (snd (perform env op s))) = calls (net s) \/
   calls (net (snd (perform env op s)))
   = (calls (net s) ++ [fetchCall env (opTarget op (Paging (resp (li s)))) s])%list).
Proof.
  destruct op as [n | |]; cbn [perform opTarget].
  - destruct (navigate_cases env n s) as [[Hrun _] | [_ [_ Hrun]]].
    + rewrite Hrun. cbn. split; [reflexivity | left; reflexivity].
    + destruct (navigate env n s) as [b s1]. cbv zeta in Hrun. cbn [snd].
      destruct (snd (fetchAnswer env (navTarget n (Paging (resp (li s)))) s));
        inversion Hrun; subst; cbn; split; (reflexivity || (right; reflexivity)).
  - unfold GetNext. rewrite fetch_eq. cbn. split; [reflexivity | right; reflexivity].
  - unfold GetPrevious. rewrite fetch_eq. cbn.
    split; [reflexivity | right; reflexivity].
Qed.

(** Through a sequence of calls the account handle stays and the log grows
    by entries that [fetch] built, at most one per call. *)
Lemma performAll_log
        {World Response : Type} (env : Collaborators World Response)
        (ops : list operation) (s : Store World) :
  mg (li (snd (performAll env ops s))) = mg (li s) /\
  exists added : list call,
    calls (net (snd (performAll env ops s))) = (calls (net s) ++ added)%list /\
    (length added <= length ops)%nat /\
    Forall (sentByFetch env (li s)) added.
Proof.
  revert s. induction ops as [| op rest IH]; intros s.
  - split; [reflexivity |]. exists []. cbn [performAll snd].
    rewrite app_nil_r. repeat split; [apply le_n | constructor].
  - cbn [performAll].
    pose proof (perform_step env op s) as [Hmg Hlog].
    destruct (perform env op s) as [o s1]. cbn [snd] in *.
    specialize (IH s1). destruct IH as [IHmg [added [IHlog [IHlen IHall]]]].
    destruct (performAll env rest s1) as [os s2]. cbn [snd] in *.
    split; [rewrite IHmg; exact Hmg |].
    assert (Hsame : Forall (sentByFetch env (li s)) added).
    { eapply Forall_impl; [| exact IHall].
      intros c [Hm [Hp Hr]]. repeat split; [exact Hm | exact Hp |].
      rewrite Hr at 1. unfold fetchRequest. rewrite Hmg. reflexivity. }
    destruct Hlog as [Hlog | Hlog].
    + exists added. rewrite IHlog, Hlog.
      repeat split; [cbn [length]; lia | exact Hsame].
    + exists (fetchCall env (opTarget op (Paging (resp (li s)))) s :: added).
      rewrite IHlog, Hlog, <- app_assoc.
      repeat split; [cbn [length]; lia |].
      constructor; [| exact Hsame].
      repeat split.
Qed.

(** What [fetch] builds: no parameters, the account's client, the package's
    basic-auth user and the account's API key as password. *)
Lemma sentByFetch_credentials
      {World Response : Type} (env : Collaborators World Response)
      (it : ListsIterator) (c : call) :
  sentByFetch env it c ->
  Parameters (callRequest c) = [] /\
  RequestClient (callRequest c) = Some (Client (mg it)) /\
  BasicAuthUser (callRequest c) = basicAuthUser env /\
  BasicAuthPassword (callRequest c) = APIKey (mg it).
Proof.
  intros [_ [_ Hr]]. rewrite Hr. repeat split.
Qed.

(** X7.  Whatever sequence of the six navigation methods is run, the account
    handle stays the same and the request log only grows: by at most one
    entry per call, each a GET without payload and without parameters,
    carrying the client of that account, the package's basic-auth user and
    the account's API key as password. *)
Theorem X7_requests_of_a_session
        {World Response : Type} (env : Collaborators World Response)
        (ops : list operation) (s : Store World) :
  mg (li (snd (performAll env ops s))) = mg (li s) /\
  exists added : list call,
    calls (net (snd (performAll env ops s))) = (calls (net s) ++ added)%list /\
    (length added <= length ops)%nat /\
    Forall (fun c : call =>
              callMethod c = GET /\
              callPayload c = None /\
              Parameters (callRequest c) = [] /\
              RequestClient (callRequest c) = Some (Client (mg (li s))) /\
              BasicAuthUser (callRequest c) = basicAuthUser env /\
              BasicAuthPassword (callRequest c) = APIKey (mg (li s)))
           added.
Proof.
  destruct (performAll_log env ops s) as [Hmg [added [Hlog [Hlen Hall]]]].
  split; [exact Hmg |]. exists added.
  split; [exact Hlog |]. split; [exact Hlen |].
  eapply Forall_impl; [| exact Hall].
  intros c Hc.
  pose proof (sentByFetch_credentials env (li s) c Hc) as [Hp [Hc1 [Hu Hk]]].
  destruct Hc as [Hm [Hpay _]].
  repeat split; assumption.
Qed.

(** X8.  After a boolean method's fetch has failed, every further boolean
    method returns false and sends nothing: the whole sequence sends exactly
    the one failed request, and [Err] is that request's error. *)
Theorem X8_one_failed_request_ends_the_iteration
        {World Response : Type} (env : Collaborators World Response)
        (op : nav) (rest : list nav) (s : Store World) (e : error) :
  err (li s) = None ->
  (op = NavPrevious -> Paging.Previous (Paging (resp (li s))) <> "") ->
  snd (fetchAnswer env (navTarget op (Paging (resp (li s)))) s) = Some e ->
  fst (navigateAll env (op :: rest) s) = false :: map (fun _ => false) rest /\
  calls (net (snd (navigateAll env (op :: rest) s)))
  = (calls (net s) ++ [fetchCall env (navTarget op (Paging (resp (li s)))) s])%list /\
  Err (li (snd (navigateAll env (op :: rest) s))) = Some e.
Proof.
  intros He Hprev Hans. cbn [navigateAll].
  rewrite (navigate_fetches env op s He Hprev). cbv zeta. rewrite Hans.
  rewrite (navigateAll_failed env rest _ e) by (cbn; exact Hans).
  cbn. repeat split. exact Hans.
Qed.

Lemma X8_one_failed_request_ends_the_iteration_witness :
  fst (navigateAll (Stub.env Stub.startUrl) [NavNext; NavFirst; NavLast; NavNext]
                   Stub.atBroken)
  = [false; false; false; false] /\
  length (calls (net (snd (navigateAll (Stub.env Stub.startUrl)
                                       [NavNext; NavFirst; NavLast; NavNext]
                                       Stub.atBroken)))) = 1%nat.
Proof.
  pose proof (X8_one_failed_request_ends_the_iteration
                (Stub.env Stub.startUrl) NavNext [NavFirst; NavLast; NavNext]
                Stub.atBroken (DecodeError "malformed page")
                eq_refl ltac:(discriminate) eq_refl) as [Hres [Hlog _]].
  split; [exact Hres |]. rewrite Hlog. reflexivity.
Defined.

(** X9.  The out slot mirrors the page.  Provided the fetch helper leaves its
    target alone when it reports an error, a caller that starts with the out
    slot equal to the iterator's page still has them equal after any
    sequence of boolean methods. *)
Theorem X9_out_slot_mirrors_page
        {World Response : Type} (env : Collaborators World Response)
        (ops : list nav) (s : Store World) :
  (forall (r : httpRequest) (v : listsResponse) (w : World) (e : error),
      snd (fst (getResponseFromJSON env r v w)) = Some e ->
      fst (fst (getResponseFromJSON env r v w)) = v) ->
  items s = Lists (resp (li s)) ->
  items (snd (navigateAll env ops s))
  = Lists (resp (li (snd (navigateAll env ops s)))).
Proof.
  intros Hkeep. revert s. induction ops as [| op rest IH]; intros s Hs.
  - exact Hs.
  - cbn [navigateAll].
    assert (Hstep : items (snd (navigate env op s))
                    = Lists (resp (li (snd (navigate env op s))))).
    { destruct (navigate_cases env op s) as [[Hrun _] | [_ [_ Hrun]]].
      - rewrite Hrun. exact Hs.
      - rewrite Hrun. cbv zeta.
        destruct (snd (fetchAnswer env (navTarget op (Paging (resp (li s)))) s))
          as [e |] eqn:Hans.
        + cbn. unfold fetchAnswer in *. rewrite (Hkeep _ _ _ e Hans). exact Hs.
        + reflexivity. }
    destruct (navigate env op s) as [b s1]. cbn [snd] in Hstep.
    specialize (IH s1 Hstep).
    destruct (navigateAll env rest s1) as [bs s2]. exact IH.
Qed.

(** The modelled fetcher, over any transport, meets the condition of X9. *)
Lemma specCollaborators_keeps_target_on_error
      {World Body : Type} (T : Transport World Body)
      (r : httpRequest) (v : listsResponse) (w : World) (e : error) :
  snd (fst (getResponseFromJSON (specCollaborators T) r v w)) = Some e ->
  fst (fst (getResponseFromJSON (specCollaborators T) r v w)) = v.
Proof. exact (specGetResponseFromJSON_failure T r v w e). Qed.

Lemma X9_out_slot_mirrors_page_witness :
  items (snd (navigateAll (Stub.env Stub.startUrl)
                          [NavFirst; NavNext; NavPrevious; NavLast] Stub.atEnd))
  = Lists (resp (li (snd (navigateAll (Stub.env Stub.startUrl)
                                      [NavFirst; NavNext; NavPrevious; NavLast]
                                      Stub.atEnd)))).
Proof.
  apply (X9_out_slot_mirrors_page (Stub.env Stub.startUrl)
                                  [NavFirst; NavNext; NavPrevious; NavLast]
                                  Stub.atEnd).
  - exact (specCollaborators_keeps_target_on_error (Stub.transport Stub.startUrl)).
  - reflexivity.
Defined.



(** X15.  The cursor chains the requests.  After a boolean method whose
    fetch succeeded, the next boolean method requests the link that the first
    response carried, also when that response was an empty page: reaching the
    end does not stop later calls from sending requests. *)
Theorem X15_next_request_follows_decoded_link
        {World Response : Type} (env : Collaborators World Response)
        (op1 op2 : nav) (s : Store World) (v : listsResponse) :
  err (li s) = None ->
  (op1 = NavPrevious -> Paging.Previous (Paging (resp (li s))) <> "") ->
  fetchAnswer env (navTarget op1 (Paging (resp (li s)))) s = (v, None) ->
  (op2 = NavPrevious -> Paging.Previous (Paging v) <> "") ->
  map (fun c : call => (callMethod c, URL (callRequest c)))
      (calls (net (snd (navigateAll env [op1; op2] s))))
  = (map (fun c : call => (callMethod c, URL (callRequest c))) (calls (net s))
     ++ [(GET, navTarget op1 (Paging (resp (li s))));
         (GET, navTarget op2 (Paging v))])%list.
Proof.
  intros He Hprev1 Hans Hprev2. cbn [navigateAll].
  rewrite (navigate_fetches env op1 s He Hprev1). cbv zeta. rewrite Hans.
  cbn [fst snd].
  set (s1 := setItems (Lists v)
                      (afterFetch env (navTarget op1 (Paging (resp (li s)))) s)).
  assert (Hresp : resp (li s1) = v).
  { unfold s1, setItems, afterFetch. rewrite Hans. reflexivity. }
  assert (He1 : err (li s1) = None).
  { unfold s1, setItems, afterFetch. rewrite Hans. reflexivity. }
  assert (Hlog1 : calls (net s1)
                  = (calls (net s)
                     ++ [fetchCall env (navTarget op1 (Paging (resp (li s)))) s])%list).
  { reflexivity. }
  assert (Hprev2' : op2 = NavPrevious ->
                    Paging.Previous (Paging (resp (li s1))) <> "").
  { rewrite Hresp. exact Hprev2. }
  rewrite (navigate_fetches env op2 s1 He1 Hprev2'). cbv zeta.
  rewrite Hresp.
  destruct (snd (fetchAnswer env (navTarget op2 (Paging v)) s1)).
  all: cbn [snd setItems afterFetch net calls].
  all: rewrite Hlog1, !map_app; cbn; rewrite <- app_assoc; reflexivity.
Qed.

Lemma X15_next_request_follows_decoded_link_witness :
  map (fun c : call => (callMethod c, URL (callRequest c)))
      (calls (net (snd (navigateAll (Stub.env Stub.startUrl) [NavNext; NavNext]
                                    Stub.atEnd))))
  = [(GET, Stub.nextUrl); (GET, Stub.nextUrl)].
Proof.
  apply (X15_next_request_follows_decoded_link
           (Stub.env Stub.startUrl) NavNext NavNext Stub.atEnd
           (Stub.emptyPage Stub.startUrl));
    [reflexivity | discriminate | reflexivity | discriminate].
Defined.

(** ** Construction, further *)

(** X2.  On an iterator as [ListMailingLists] returns it, [Next] and [First]
    do the same thing: they send the same request (or none) and leave the
    same store.  Their results differ only on a successful empty page, where
    [First] reports true and [Next] false. *)
Theorem X2_Next_is_First_on_a_new_iterator
        {World Response : Type} (env : Collaborators World Response)
        (m : Mailgun) (opts : option ListsOptions) (n n' : Net World)
        (out : list List) :
  let s := mkStore (fst (ListMailingLists env m opts n)) out n' in
  snd (Next env s) = snd (First env s) /\
  fst (Next env s)
  = fst (First env s)
    && negb (length (Lists (resp (li (snd (First env s))))) =? 0)%nat.
Proof.
  unfold ListMailingLists.
  destruct (generateUrlWithParameters env (listRequest env m opts)) as [url e].
  cbn [fst]. cbv zeta. unfold Next, First. cbn [li err resp Paging
    Paging.Next Paging.First].
  destruct e as [e |]; [split; reflexivity |].
  rewrite fetch_eq. cbn.
  destruct (snd (fetchAnswer env url _)); cbn; [split; reflexivity |].
  destruct (length _ =? 0)%nat; split; reflexivity.
Qed.

(** X1.  A limit of 0 is no limit: with nil options or with limit 0 the
    request has no parameter and the same iterator is built; any other limit,
    negative ones included, is added as the single parameter [limit] in
    decimal.  The request always addresses the [/pages] resource of the
    lists endpoint with the account's credentials. *)
Theorem X1_limit_option
        {World Response : Type} (env : Collaborators World Response)
        (m : Mailgun) (o : ListsOptions) (n : Net World) :
  (Limit o = 0%Z ->
   ListMailingLists env m (Some o) n = ListMailingLists env m None n) /\
  (Limit o <> 0%Z ->
   listRequest env m (Some o)
   = addParameter (listRequest env m None) "limit" (Itoa (Limit o))) /\
  listRequest env m None
  = mkRequest (generatePublicApiUrl env m (listsEndpoint env) ++ "/pages") []
              (Some (Client m)) (basicAuthUser env) (APIKey m).
Proof.
  split; [| split].
  - intros Hz. unfold ListMailingLists, listRequest. rewrite Hz. reflexivity.
  - intros Hnz. unfold listRequest.
    destruct (Z.eqb_spec (Limit o) 0) as [Heq | _]; [contradiction | reflexivity].
  - reflexivity.
Qed.

Lemma X1_limit_option_witness :
  ListMailingLists (Stub.env Stub.startUrl) Stub.account (Some (mkListsOptions 0))
                   Stub.net0
  = ListMailingLists (Stub.env Stub.startUrl) Stub.account None Stub.net0 /\
  Parameters (listRequest (Stub.env Stub.startUrl) Stub.account
                          (Some (mkListsOptions (-5))))
  = [("limit", "-5")].
Proof.
  split.
  - apply (X1_limit_option (Stub.env Stub.startUrl) Stub.account
                           (mkListsOptions 0) Stub.net0).
    reflexivity.
  - pose proof (X1_limit_option (Stub.env Stub.startUrl) Stub.account
                                (mkListsOptions (-5)) Stub.net0) as [_ [Hadd _]].
    rewrite Hadd by discriminate. reflexivity.
Defined.

(** * Further properties of the item operations *)

(** What [CreateMailingList] returns, by the outcome of the POST. *)
Lemma CreateMailingList_result
      {World Response : Type} (env : Collaborators World Response)
      (m : Mailgun) (prototype : List) (n : Net World) :
  fst (CreateMailingList env m prototype n)
  = match snd (fst (makePostRequest env (createRequest env m)
                                    (nonEmptyFields prototype) (world n))) with
    | Some e => (zeroList, Some e)
    | None =>
      parseFromJSON env
        (fst (fst (makePostRequest env (createRequest env m)
                                   (nonEmptyFields prototype) (world n))))
        zeroList
    end.
Proof.
  unfold CreateMailingList. pose proof (payload_built prototype) as Hp.
  cbv zeta in Hp |- *. rewrite Hp.
  unfold invokePost, createRequest.
  destruct (makePostRequest env _ _ (world n)) as [[response e] w].
  destruct e; reflexivity.
Qed.

(** What [UpdateMailingList] returns, by the outcome of the PUT. *)
Lemma UpdateMailingList_result
      {World Response : Type} (env : Collaborators World Response)
      (m : Mailgun) (addr : string) (prototype : List) (n : Net World) :
  fst (UpdateMailingList env m addr prototype n)
  = match snd (fst (makePutRequest env (updateRequest env m addr)
                                   (nonEmptyFields prototype) (world n))) with
    | Some e => (zeroList, Some e)
    | None =>
      parseFromJSON env
        (fst (fst (makePutRequest env (updateRequest env m addr)
                                  (nonEmptyFields prototype) (world n))))
        zeroList
    end.
Proof.
  unfold UpdateMailingList. pose proof (payload_built prototype) as Hp.
  cbv zeta in Hp |- *. rewrite Hp.
  unfold invokePut, updateRequest.
  destruct (makePutRequest env _ _ (world n)) as [[response e] w].
  destruct e; reflexivity.
Qed.

(** X11.  When the request of [CreateMailingList] or [UpdateMailingList]
    fails, the operation returns the zero [List] together with exactly that
    error; nothing of the prototype comes back. *)
Theorem X11_failed_request_returns_zero_list
        {World Response : Type} (env : Collaborators World Response)
        (m : Mailgun) (addr : string) (prototype : List) (n : Net World)
        (e : error) :
  (snd (fst (makePostRequest env (createRequest env m)
                             (nonEmptyFields prototype) (world n))) = Some e ->
   fst (CreateMailingList env m prototype n) = (zeroList, Some e)) /\
  (snd (fst (makePutRequest env (updateRequest env m addr)
                            (nonEmptyFields prototype) (world n))) = Some e ->
   fst (UpdateMailingList env m addr prototype n) = (zeroList, Some e)).
Proof.
  split; intros Hfail.
  - rewrite CreateMailingList_result, Hfail. reflexivity.
  - rewrite UpdateMailingList_result, Hfail. reflexivity.
Qed.

Lemma X11_failed_request_returns_zero_list_witness :
  fst (CreateMailingList Offline.env Stub.account Stub.listA Stub.net0)
  = (zeroList, Some Offline.refused) /\
  fst (UpdateMailingList Offline.env Stub.account "a@example.com" Stub.listB
                         Stub.net0)
  = (zeroList, Some Offline.refused).
Proof.
  pose proof (X11_failed_request_returns_zero_list
                Offline.env Stub.account "a@example.com" Stub.listA Stub.net0
                Offline.refused) as [Hcreate _].
  pose proof (X11_failed_request_returns_zero_list
                Offline.env Stub.account "a@example.com" Stub.listB Stub.net0
                Offline.refused) as [_ Hupdate].
  split; [apply Hcreate | apply Hupdate]; reflexivity.
Defined.

(** X14.  [CreateMailingList] does not validate its prototype: one POST is
    sent whatever the prototype, and its payload is empty exactly when
    address, name, description and access level are all empty. *)
Theorem X14_empty_prototype_is_sent
        {World Response : Type} (env : Collaborators World Response)
        (m : Mailgun) (prototype : List) (n : Net World) :
  (exists p : urlEncodedPayload,
      calls (snd (CreateMailingList env m prototype n))
      = (calls n ++ [mkCall POST (createRequest env m) (Some p)])%list) /\
  (calls (snd (CreateMailingList env m prototype n))
   = (calls n ++ [mkCall POST (createRequest env m) (Some [])])%list
   <->
   Address prototype = "" /\ Name prototype = "" /\
   Description prototype = "" /\ AccessLevel prototype = "").
Proof.
  rewrite CreateMailingList_calls. split.
  - exists (nonEmptyFields prototype). reflexivity.
  - split.
    + intros Heq. apply app_inv_head in Heq.
      assert (Hp : nonEmptyFields prototype = []) by congruence.
      unfold nonEmptyFields in Hp. cbn [filter snd] in Hp.
      destruct (String.eqb_spec (Address prototype) ""),
               (String.eqb_spec (Name prototype) ""),
               (String.eqb_spec (Description prototype) ""),
               (String.eqb_spec (AccessLevel prototype) "");
        cbn [negb] in Hp; try discriminate.
      repeat split; assumption.
    + intros [Ha [Hn [Hd Hl]]].
      unfold nonEmptyFields. rewrite Ha, Hn, Hd, Hl. reflexivity.
Qed.

(** What [GetMailingList] returns, by the outcome of the GET. *)
Lemma GetMailingList_result
      {World Response : Type} (env : Collaborators World Response)
      (ienv : ItemCollaborators World Response)
      (m : Mailgun) (addr : string) (n : Net World) :
  fst (GetMailingList env ienv m addr n)
  = match snd (fst (makeGetRequest ienv (updateRequest env m addr) (world n))) with
    | Some e => (zeroList, Some e)
    | None =>
      let parsed :=
          parseEnvelopeFromJSON ienv
            (fst (fst (makeGetRequest ienv (updateRequest env m addr) (world n))))
            (mkEnvelope zeroList) in
      (envelopeList (fst parsed), snd parsed)
    end.
Proof.
  unfold GetMailingList, invokeGetRequest, updateRequest. cbv zeta.
  destruct (makeGetRequest ienv _ (world n)) as [[response e] w].
  destruct e; [reflexivity |]. cbn [fst snd].
  destruct (parseEnvelopeFromJSON ienv response (mkEnvelope zeroList)).
  reflexivity.
Qed.

(** X12.  [GetMailingList], [UpdateMailingList] and [DeleteMailingList] of
    one address each send exactly one request, and it is the same request
    (URL of the lists endpoint followed by a slash and the address as given,
    same client and credentials, no parameters); they differ in the method
    and in that only the update carries a payload.  The address is not
    validated. *)
Theorem X12_item_operations_address_one_resource
        {World Response : Type} (env : Collaborators World Response)
        (ienv : ItemCollaborators World Response)
        (m : Mailgun) (addr : string) (prototype : List) (n : Net World) :
  calls (snd (GetMailingList env ienv m addr n))
  = (calls n ++ [mkCall GET (updateRequest env m addr) None])%list /\
  calls (snd (DeleteMailingList env ienv m addr n))
  = (calls n ++ [mkCall DELETE (updateRequest env m addr) None])%list /\
  calls (snd (UpdateMailingList env m addr prototype n))
  = (calls n ++ [mkCall PUT (updateRequest env m addr)
                        (Some (nonEmptyFields prototype))])%list /\
  updateRequest env m addr
  = mkRequest (generatePublicApiUrl env m (listsEndpoint env) ++ "/" ++ addr) []
              (Some (Client m)) (basicAuthUser env) (APIKey m).
Proof.
  split; [| split; [| split]].
  - unfold GetMailingList, invokeGetRequest, updateRequest. cbv zeta.
    destruct (makeGetRequest ienv _ (world n)) as [[response e] w].
    destruct e; [reflexivity |].
    destruct (parseEnvelopeFromJSON ienv response (mkEnvelope zeroList)).
    reflexivity.
  - unfold DeleteMailingList, invokeDelete, updateRequest. cbv zeta.
    destruct (makeDeleteRequest ienv _ (world n)) as [[response e] w].
    reflexivity.
  - apply UpdateMailingList_calls.
  - reflexivity.
Qed.

(** X13.  When the request of [GetMailingList] fails, it returns the zero
    [List] with exactly that error; [DeleteMailingList] returns exactly what
    its request reports, nil included. *)
Theorem X13_failed_get_and_delete
        {World Response : Type} (env : Collaborators World Response)
        (ienv : ItemCollaborators World Response)
        (m : Mailgun) (addr : string) (n : Net World) (e : error) :
  (snd (fst (makeGetRequest ienv (updateRequest env m addr) (world n))) = Some e ->
   fst (GetMailingList env ienv m addr n) = (zeroList, Some e)) /\
  fst (DeleteMailingList env ienv m addr n)
  = snd (fst (makeDeleteRequest ienv (updateRequest env m addr) (world n))).
Proof.
  split.
  - intros Hfail. rewrite GetMailingList_result, Hfail. reflexivity.
  - unfold DeleteMailingList, invokeDelete, updateRequest. cbv zeta.
    destruct (makeDeleteRequest ienv _ (world n)) as [[response oe] w].
    reflexivity.
Qed.

Lemma X13_failed_get_and_delete_witness :
  fst (GetMailingList (Stub.env Stub.startUrl)
                      (specItemCollaborators (Stub.transport Stub.startUrl))
                      Stub.account "gone@example.com" Stub.net0)
  = (zeroList, Some (StatusError 404 "not found")).
Proof.
  pose proof (X13_failed_get_and_delete
                (Stub.env Stub.startUrl)
                (specItemCollaborators (Stub.transport Stub.startUrl))
                Stub.account "gone@example.com" Stub.net0
                (StatusError 404 "not found")) as [Hget _].
  apply Hget. reflexivity.
Defined.
